(** * collect_changed_issues.py: SonarQube findings on changed files

    A shallow embedding of
    [.codex/skills/sonarqube/scripts/collect_changed_issues.py] and the
    properties its specification states about it.

    Conventions of the embedding.
    - A Python [str] is a [string]; its characters are read as code points
      (below 256), so comparison of strings is comparison by code point, as
      in Python.
    - A Python [int] is a [Z].
    - [set[str]] is [gset string]; the two module-level dictionaries are
      [gmap string _].
    - Exceptions are values of [exn]; a computation that performs I/O is a
      function on the log of the I/O events performed so far. *)

From Stdlib Require Import ZArith Ascii String.
From stdpp Require Import base decidable option list gmap strings sorting pretty.

Local Open Scope Z_scope.
Local Open Scope list_scope.

(** ** Python string primitives *)

Module Py.

(** [str.isspace] on one character (code points below 256): the ASCII
    white space, the separators 0x1c-0x1f, NEL (0x85) and NBSP (0xa0). *)
Definition isspace (c : ascii) : bool :=
  let n := N_of_ascii c in
  ((9 <=? n) && (n <=? 13) || (28 <=? n) && (n <=? 32)
   || (n =? 133) || (n =? 160))%N.

(** [str.lower] on one character (code points below 256). *)
Definition lower_char (c : ascii) : ascii :=
  let n := N_of_ascii c in
  if ((65 <=? n) && (n <=? 90)
      || (192 <=? n) && (n <=? 222) && negb (n =? 215))%N
  then ascii_of_N (n + 32) else c.

Fixpoint lower (s : string) : string :=
  match s with
  | EmptyString => EmptyString
  | String c s' => String (lower_char c) (lower s')
  end.

Fixpoint lstrip (s : string) : string :=
  match s with
  | EmptyString => EmptyString
  | String c s' => if isspace c then lstrip s' else s
  end.

Fixpoint rstrip (s : string) : string :=
  match s with
  | EmptyString => EmptyString
  | String c s' =>
      match rstrip s' with
      | EmptyString => if isspace c then EmptyString else String c EmptyString
      | r => String c r
      end
  end.

(** [s.strip()] *)
Definition strip (s : string) : string := rstrip (lstrip s).

(** [s.startswith(p)] *)
Definition startswith (s p : string) : bool := String.prefix p s.
Global Arguments startswith : simpl never.

(** [s[n:]] *)
Fixpoint drop (n : nat) (s : string) : string :=
  match n, s with
  | O, _ => s
  | S n', String _ s' => drop n' s'
  | S _, EmptyString => EmptyString
  end.

(** [c in s] for a one-character [c] *)
Fixpoint contains (c : ascii) (s : string) : bool :=
  match s with
  | EmptyString => false
  | String a s' => if Ascii.eqb a c then true else contains c s'
  end.

(** [s.split(sep)] for a one-character separator: never the empty list. *)
Fixpoint split (sep : ascii) (s : string) : list string :=
  match s with
  | EmptyString => [EmptyString]
  | String a s' =>
      if Ascii.eqb a sep then EmptyString :: split sep s'
      else match split sep s' with
           | [] => [String a EmptyString]
           | w :: ws => String a w :: ws
           end
  end.

(** [s.split(sep, 1)] for a one-character separator. *)
Fixpoint split1 (sep : ascii) (s : string) : list string :=
  match s with
  | EmptyString => [EmptyString]
  | String a s' =>
      if Ascii.eqb a sep then [EmptyString; s']
      else match split1 sep s' with
           | [] => [String a EmptyString]
           | w :: ws => String a w :: ws
           end
  end.

(** [sep.join(l)] *)
Definition join (sep : string) (l : list string) : string :=
  String.concat sep l.

(** [s.replace(old, new)] for a one-character [old]. *)
Fixpoint replace (old : ascii) (new : string) (s : string) : string :=
  match s with
  | EmptyString => EmptyString
  | String a s' =>
      if Ascii.eqb a old then new +:+ replace old new s'
      else String a (replace old new s')
  end.

(** [sep * n] *)
Fixpoint repeat_char (c : ascii) (n : nat) : string :=
  match n with
  | O => EmptyString
  | S n' => String c (repeat_char c n')
  end.

(** [str(n)] for an [int]. *)
Definition str_of_int (n : Z) : string := pretty n.

End Py.

Abbreviation slash := ("/"%char) (only parsing).
Abbreviation backslash := ("092"%char) (only parsing).
Abbreviation newline := ("010"%char) (only parsing).

(** ** [os.path.normpath] (posixpath), which [normalize_path] calls *)

Definition initial_slashes (path : string) : nat :=
  if Py.startswith path "/" then
    if Py.startswith path "//" && negb (Py.startswith path "///") then 2%nat
    else 1%nat
  else 0%nat.

(** One pass of the body of [for comp in comps]. *)
Definition normpath_step (slashes : nat) (new_comps : list string)
    (comp : string) : list string :=
  if String.eqb comp "" || String.eqb comp "." then new_comps
  else if negb (String.eqb comp "..")
          || (Nat.eqb slashes 0 && bool_decide (new_comps = []))
          || (negb (bool_decide (new_comps = []))
              && bool_decide (last new_comps = Some ".."))
       then new_comps ++ [comp]
       else if negb (bool_decide (new_comps = [])) then removelast new_comps
       else new_comps.

Definition normpath (path : string) : string :=
  if String.eqb path "" then "."
  else
    let slashes := initial_slashes path in
    let comps := Py.split slash path in
    let new_comps := foldl (normpath_step slashes) [] comps in
    let path := Py.join "/" new_comps in
    let path := Py.repeat_char slash slashes +:+ path in
    if String.eqb path "" then "." else path.

(** ** [normalize_path] *)

Definition normalize_path (path : string) : string :=
  let path := Py.strip path in
  let path := if Py.startswith path "./" then Py.drop 2 path else path in
  Py.replace backslash "/" (normpath path).


(** ** Data model *)

(** A value of [json.loads], for the fields whose type the script tests
    at run time ([line] and [textRange.startLine]); the script never looks
    inside an array or an object found there. *)
Inductive json : Type :=
| JNull
| JBool (b : bool)
| JInt (n : Z)
| JFloat (literal : string)
| JStr (s : string)
| JArray
| JObject.

(** An instance of [int]; [bool] is a subclass of [int] in Python, and
    [True == 1]. *)
Inductive pyint : Type :=
| PInt (n : Z)
| PBool (b : bool).

Definition int_value (v : pyint) : Z :=
  match v with
  | PInt n => n
  | PBool b => if b then 1 else 0
  end.

(** [isinstance(x, int)], for [x] the result of a [dict.get] without
    default ([None] when the key is absent); the value is kept when the
    test passes. *)
Definition isinstance_int (x : option json) : option pyint :=
  match x with
  | Some (JInt n) => Some (PInt n)
  | Some (JBool b) => Some (PBool b)
  | _ => None
  end.

(** [isinstance(x, int) and x > 0] *)
Definition positive_int (x : option json) : option pyint :=
  match isinstance_int x with
  | Some v => if 0 <? int_value v then Some v else None
  | None => None
  end.

(** [str(v)] *)
Definition str_of_pyint (v : pyint) : string :=
  match v with
  | PInt n => Py.str_of_int n
  | PBool b => if b then "True" else "False"
  end.

(** An issue as the SonarQube Web API serves it: a JSON object whose
    fields may be absent.  The fields the script uses as strings are
    strings; [line] and [startLine], which it type-tests, are any JSON
    value. *)
Record text_range : Type := TextRange {
  startLine : option json
}.

Record raw_issue : Type := RawIssue {
  r_key : option string;
  r_rule : option string;
  r_type : option string;
  r_severity : option string;
  r_message : option string;
  r_component : option string;
  r_line : option json;
  r_textRange : option text_range;
  r_status : option string;
  r_effort : option string;
  r_tags : option (list string)
}.

(** The dictionaries [filter_issues] builds. *)
Record finding : Type := Finding {
  f_key : string;
  f_rule : string;
  f_type : string;
  f_severity : string;
  f_message : string;
  f_file : string;
  f_line : pyint;
  f_status : string;
  f_effort : string;
  f_tags : list string
}.

Inductive exn : Type :=
| RuntimeError (msg : string)
| KeyError (key : string)
| OSError (path : string)
| ValueError.

Inductive result (A : Type) : Type :=
| Ok (a : A)
| Err (e : exn).
Arguments Ok {A} a.
Arguments Err {A} e.

(** ** The two tables *)

Definition SEVERITY_ORDER : gmap string Z :=
  list_to_map
    [("INFO", 1); ("MINOR", 2); ("MAJOR", 3); ("CRITICAL", 4); ("BLOCKER", 5)].

Definition THRESHOLD_TO_SEVERITY : gmap string string :=
  list_to_map
    [("info", "INFO"); ("low", "MINOR"); ("medium", "MAJOR");
     ("high", "CRITICAL"); ("blocker", "BLOCKER");
     ("minor", "MINOR"); ("major", "MAJOR"); ("critical", "CRITICAL");
     ("all", "INFO")].

(** [d[k]] *)
Definition getitem {V} (d : gmap string V) (k : string) : result V :=
  match d !! k with
  | Some v => Ok v
  | None => Err (KeyError k)
  end.

(** [SEVERITY_ORDER.get(severity, 0)] *)
Definition rankOf (severity : string) : Z :=
  default 0 (SEVERITY_ORDER !! severity).

(** ** [issue_file_path], [issue_line] *)

(** The guard [":" in component] makes index 1 of the split exist
    ([split1_lookup_1] below), so no [IndexError] arises. *)
Definition issue_file_path (issue : raw_issue) : string :=
  let component := default "" (r_component issue) in
  let component :=
    if Py.contains ":" component
    then default component (Py.split1 ":" component !! 1%nat)
    else component in
  normalize_path component.

Definition issue_line (issue : raw_issue) : pyint :=
  match positive_int (r_line issue) with
  | Some line => line
  | None =>
      let text_range := default (TextRange None) (r_textRange issue) in
      match positive_int (startLine text_range) with
      | Some start_line => start_line
      | None => PInt 0
      end
  end.

(** ** [list.sort(key=...)]

    Python's sort is stable and compares keys with [<] only.  Under a
    key order that is a strict weak order, the stable sorted arrangement
    of a list is unique, so an insertion sort that keeps equal keys in
    their order of arrival computes it. *)

Section sort.
Context {A K : Type} (lt : K → K → bool) (key : A → K).

Fixpoint insert_sorted (x : A) (l : list A) : list A :=
  match l with
  | [] => [x]
  | y :: l' =>
      if lt (key y) (key x) then y :: insert_sorted x l'
      else x :: y :: l'
  end.

Definition list_sort (l : list A) : list A := foldr insert_sorted [] l.
End sort.

(** [a < b] on the key tuples [(-rank, file, line, key)]: the first
    position where the tuples differ decides. *)
Definition sort_key : Type := Z * string * Z * string.

Definition sort_key_lt (a b : sort_key) : bool :=
  let '(r1, f1, l1, k1) := a in
  let '(r2, f2, l2, k2) := b in
  if negb (r1 =? r2) then r1 <? r2
  else if negb (String.eqb f1 f2) then String.ltb f1 f2
  else if negb (l1 =? l2) then l1 <? l2
  else if negb (String.eqb k1 k2) then String.ltb k1 k2
  else false.

Definition finding_sort_key (f : finding) : sort_key :=
  (- rankOf (f_severity f), f_file f, int_value (f_line f), f_key f).

(** ** [filter_issues] *)

(** The body of [for issue in raw_issues]. *)
Definition filter_step (changed_files : gset string) (threshold_rank : Z)
    (findings : list finding) (issue : raw_issue) : list finding :=
  let severity := default "INFO" (r_severity issue) in
  let rank := rankOf severity in
  let file_path := issue_file_path issue in
  if rank <? threshold_rank then findings
  else if negb (bool_decide (file_path ∈ changed_files)) then findings
  else
    findings ++
      [ {| f_key := default "" (r_key issue);
           f_rule := default "" (r_rule issue);
           f_type := default "" (r_type issue);
           f_severity := severity;
           f_message := default "" (r_message issue);
           f_file := file_path;
           f_line := issue_line issue;
           f_status := default "" (r_status issue);
           f_effort := default "" (r_effort issue);
           f_tags := default [] (r_tags issue) |} ].

Definition filter_issues (raw_issues : list raw_issue)
    (changed_files : gset string) (threshold : string)
    : result (list finding) :=
  match getitem THRESHOLD_TO_SEVERITY threshold with
  | Err e => Err e
  | Ok threshold_sev =>
      match getitem SEVERITY_ORDER threshold_sev with
      | Err e => Err e
      | Ok threshold_rank =>
          let findings :=
            foldl (filter_step changed_files threshold_rank) [] raw_issues in
          Ok (list_sort sort_key_lt finding_sort_key findings)
      end
  end.

(** ** The outside world and the I/O monad *)

(** A header value; [Basic c] stands for ["Basic " + base64(c)]. *)
Inductive header_value : Type :=
| Plain (s : string)
| Basic (credentials : string).

(** One call of [urllib.request.urlopen]: the URL up to the [?], the
    dictionary given to [urlencode], and the headers. *)
Record request : Type := Request {
  req_url : string;
  req_query : list (string * string);
  req_headers : list (string * header_value)
}.

Record paging_info : Type := Paging {
  total : option Z;
  pageSize : option Z
}.

Record payload : Type := Payload {
  issues : option (list raw_issue);
  paging : option paging_info
}.

(** What [urlopen] and the decoding of the body come to. *)
Inductive response : Type :=
| HTTPError (code : Z) (body : string)
| URLError (reason : string)
| BadBody
| Body (p : payload).

Record summary : Type := Summary {
  s_project_key : string;
  s_severity_threshold : string;
  s_changed_files : Z;
  s_findings : Z;
  s_severity_counts : list (string * Z)
}.

Record report : Type := Report {
  rep_summary : summary;
  rep_findings : list finding
}.

Inductive event : Type :=
| EvOpenRead (path : string)
| EvRequest (req : request)
| EvMakedirs (for_path : string)
| EvWriteJson (path : string) (output : report)
| EvWriteText (path : string) (text : string)
| EvStderr (msg : string)
| EvTraceback (e : exn).

(** The environment of one run: the lines a text file yields when it can
    be opened, the answer of the server to each request, and whether a
    directory can be made or a file opened for writing. *)
Record world : Type := World {
  file_lines : string → option (list string);
  urlopen : request → response;
  can_makedirs : string → bool;
  can_write : string → bool
}.

(** A computation maps the log of events so far to an outcome and the
    extended log; the outcome is [None] when the loop of [fetch_issues]
    has not ended within the given number of iterations. *)
Record M (A : Type) : Type := MkM {
  run : list event → option (result A) * list event
}.
Arguments MkM {A} run.
Arguments run {A} m tr.

Definition ret {A} (a : A) : M A := MkM (λ tr, (Some (Ok a), tr)).
Definition raise {A} (e : exn) : M A := MkM (λ tr, (Some (Err e), tr)).
Definition running {A} : M A := MkM (λ tr, (None, tr)).
Definition emit (ev : event) : M unit :=
  MkM (λ tr, (Some (Ok tt), tr ++ [ev])).
Definition bind {A B} (m : M A) (k : A → M B) : M B :=
  MkM (λ tr,
    match run m tr with
    | (Some (Ok a), tr') => run (k a) tr'
    | (Some (Err e), tr') => (Some (Err e), tr')
    | (None, tr') => (None, tr')
    end).
Definition lift {A} (r : result A) : M A :=
  match r with
  | Ok a => ret a
  | Err e => raise e
  end.

#[global] Instance M_ret : MRet M := @ret.
#[global] Instance M_bind : MBind M := λ A B k m, bind m k.

Definition nl : string := String newline "".

(** [s.rstrip(c)] for a one-character [c]. *)
Fixpoint rstrip_char (c : ascii) (s : string) : string :=
  match s with
  | EmptyString => EmptyString
  | String a s' =>
      match rstrip_char c s' with
      | EmptyString => if Ascii.eqb a c then EmptyString else String a EmptyString
      | r => String a r
      end
  end.

(** The namespace [parse_args] returns. *)
Record args : Type := Args {
  host_url : string;
  project_key : string;
  changed_files : string;
  severity_threshold : string;
  output_json : string;
  output_md : string;
  token : string;
  user : string;
  password : string
}.

Section script.
Context (w : world).

(** [with open(path, "r") as fh: for line in fh] *)
Definition open_read (path : string) : M (list string) :=
  emit (EvOpenRead path);;
  match file_lines w path with
  | Some lines => mret lines
  | None => raise (OSError path)
  end.

(** The body of [for line in fh]. *)
Definition load_step (files : gset string) (line : string) : gset string :=
  let line := Py.strip line in
  if String.eqb line "" then files
  else files ∪ {[ normalize_path line ]}.

Definition load_changed_files (path : string) : M (gset string) :=
  lines ← open_read path;
  mret (foldl load_step ∅ lines).

Definition build_headers (token user password : string)
    : list (string * header_value) :=
  let headers := [("Accept", Plain "application/json")] in
  let auth :=
    if negb (String.eqb token "") then token +:+ ":"
    else if negb (String.eqb user "") || negb (String.eqb password "")
         then user +:+ ":" +:+ password
         else "" in
  if negb (String.eqb auth "")
  then headers ++ [("Authorization", Basic auth)]
  else headers.

Definition search_request (host_url project_key : string)
    (headers : list (string * header_value)) (page : Z) : request :=
  {| req_url := rstrip_char slash host_url +:+ "/api/issues/search";
     req_query := [("projectKeys", project_key);
                   ("statuses", "OPEN,CONFIRMED,REOPENED");
                   ("ps", "500");
                   ("p", Py.str_of_int page)];
     req_headers := headers |}.

(** The [while True] loop of [fetch_issues], from the state
    [(page, issues)]; [fuel] bounds the number of iterations. *)
Fixpoint fetch_loop (fuel : nat) (host_url project_key : string)
    (headers : list (string * header_value))
    (page : Z) (issues_acc : list raw_issue) : M (list raw_issue) :=
  match fuel with
  | O => running
  | S fuel' =>
      let req := search_request host_url project_key headers page in
      emit (EvRequest req);;
      match urlopen w req with
      | HTTPError code body =>
          raise (RuntimeError
                   ("SonarQube API error " +:+ Py.str_of_int code
                    +:+ ": " +:+ body))
      | URLError reason =>
          raise (RuntimeError
                   ("Cannot reach SonarQube at " +:+ host_url
                    +:+ ": " +:+ reason))
      | BadBody => raise ValueError
      | Body payload =>
          let page_issues := default [] (issues payload) in
          let issues_acc := issues_acc ++ page_issues in
          let paging := default (Paging None None) (paging payload) in
          let total :=
            default (Z.of_nat (length issues_acc)) (total paging) in
          let page_size := default 500 (pageSize paging) in
          if page * page_size >=? total then mret issues_acc
          else fetch_loop fuel' host_url project_key headers
                 (page + 1) issues_acc
      end
  end.

Definition fetch_issues (fuel : nat) (host_url project_key : string)
    (headers : list (string * header_value)) : M (list raw_issue) :=
  fetch_loop fuel host_url project_key headers 1 [].

(** [os.makedirs(os.path.dirname(path) or ".", exist_ok=True)] *)
Definition makedirs_for (path : string) : M unit :=
  emit (EvMakedirs path);;
  if can_makedirs w path then mret tt else raise (OSError path).

(** One table row of [write_markdown]. *)
Definition markdown_row (item : finding) : string :=
  let message :=
    Py.replace newline " "
      (Py.replace "|" (String backslash "|") (f_message item)) in
  "| " +:+ f_severity item +:+ " | `" +:+ f_file item +:+ "` | "
  +:+ (if int_value (f_line item) =? 0 then ""
       else str_of_pyint (f_line item))
  +:+ " | `" +:+ f_rule item +:+ "` | " +:+ message +:+ " |" +:+ nl.

Definition markdown_header (project_key threshold : string)
    (changed_count : Z) (findings : list finding) : string :=
  "# SonarQube Findings (Changed Files)" +:+ nl +:+ nl
  +:+ "- Project: `" +:+ project_key +:+ "`" +:+ nl
  +:+ "- Severity threshold: `" +:+ threshold +:+ "`" +:+ nl
  +:+ "- Changed files scanned: `" +:+ Py.str_of_int changed_count
  +:+ "`" +:+ nl
  +:+ "- Findings: `" +:+ Py.str_of_int (Z.of_nat (length findings))
  +:+ "`" +:+ nl +:+ nl.

Definition markdown_text (project_key threshold : string)
    (changed_count : Z) (findings : list finding) : string :=
  markdown_header project_key threshold changed_count findings
  +:+ match findings with
      | [] =>
          "No findings at or above the selected threshold on changed files."
          +:+ nl
      | _ =>
          "| Severity | File | Line | Rule | Message |" +:+ nl
          +:+ "|---|---|---:|---|---|" +:+ nl
          +:+ foldr (λ item rest, markdown_row item +:+ rest) "" findings
      end.

Definition write_markdown (path project_key threshold : string)
    (changed_count : Z) (findings : list finding) : M unit :=
  if can_write w path
  then emit (EvWriteText path
               (markdown_text project_key threshold changed_count findings))
  else raise (OSError path).

Definition write_json (path : string) (output : report) : M unit :=
  if can_write w path then emit (EvWriteJson path output)
  else raise (OSError path).

(** [dict(sorted(Counter(item["severity"] for item in findings).items()))] *)
Definition counter (findings : list finding) : gmap string Z :=
  foldl (λ c item, <[f_severity item := default 0 (c !! f_severity item) + 1]> c)
    ∅ findings.

Definition item_lt (a b : string * Z) : bool :=
  if negb (String.eqb a.1 b.1) then String.ltb a.1 b.1
  else if negb (a.2 =? b.2) then a.2 <? b.2
  else false.

Definition severity_counts (findings : list finding) : list (string * Z) :=
  list_sort item_lt id (map_to_list (counter findings)).

Definition invalid_threshold_message (given : string) : string :=
  "invalid severity threshold '" +:+ given
  +:+ "' (expected blocker|high|medium|low|info; aliases: critical|major|minor|all)".

Definition main (fuel : nat) (a : args) : M Z :=
  let threshold := Py.strip (Py.lower (severity_threshold a)) in
  if negb (bool_decide (is_Some (THRESHOLD_TO_SEVERITY !! threshold)))
  then raise (RuntimeError (invalid_threshold_message (severity_threshold a)))
  else
    changed ← load_changed_files (changed_files a);
    let headers := build_headers (token a) (user a) (password a) in
    raw_issues ← fetch_issues fuel (host_url a) (project_key a) headers;
    findings ← lift (filter_issues raw_issues changed threshold);
    let output :=
      {| rep_summary :=
           {| s_project_key := project_key a;
              s_severity_threshold := threshold;
              s_changed_files := Z.of_nat (size changed);
              s_findings := Z.of_nat (length findings);
              s_severity_counts := severity_counts findings |};
         rep_findings := findings |} in
    makedirs_for (output_json a);;
    makedirs_for (output_md a);;
    write_json (output_json a) output;;
    write_markdown (output_md a) (project_key a) threshold
      (Z.of_nat (size changed)) findings;;
    mret (match findings with [] => 0 | _ => 3 end).

(** The [if __name__ == "__main__"] block: the exit status, [None] while
    the run has not ended.  An exception other than [RuntimeError] is
    not caught; the interpreter prints the traceback and exits with 1. *)
Definition script (fuel : nat) (a : args) (tr : list event)
    : option Z * list event :=
  match run (main fuel a) tr with
  | (Some (Ok status), tr') => (Some status, tr')
  | (Some (Err (RuntimeError msg)), tr') =>
      (Some 1, tr' ++ [EvStderr ("error: " +:+ msg)])
  | (Some (Err e), tr') => (Some 1, tr' ++ [EvTraceback e])
  | (None, tr') => (None, tr')
  end.

End script.
(** In a normalised component list every [..] is at the front. *)
Definition dotdot_rel (a b : string) : Prop := b = ".." → a = "..".

Definition clean_comp (c : string) : Prop :=
  c ≠ "" ∧ c ≠ "." ∧ Py.contains slash c = false.

Record clean (k : nat) (l : list string) : Prop := Clean {
  clean_comps : Forall clean_comp l;
  clean_lead : StronglySorted dotdot_rel l;
  clean_rooted : k ≠ 0%nat → ".." ∉ l
}.


(** ** Predicates used to state the properties *)

(** The five severities of the fixed enumeration. *)
Definition severities : list string :=
  ["INFO"; "MINOR"; "MAJOR"; "CRITICAL"; "BLOCKER"].

(** The rank [filter_issues] compares with the threshold: a missing
    severity counts as [INFO]. *)
Definition issue_rank (issue : raw_issue) : Z :=
  rankOf (default "INFO" (r_severity issue)).

(** The finding a kept issue gives. *)
Definition finding_of (issue : raw_issue) : finding :=
  {| f_key := default "" (r_key issue);
     f_rule := default "" (r_rule issue);
     f_type := default "" (r_type issue);
     f_severity := default "INFO" (r_severity issue);
     f_message := default "" (r_message issue);
     f_file := issue_file_path issue;
     f_line := issue_line issue;
     f_status := default "" (r_status issue);
     f_effort := default "" (r_effort issue);
     f_tags := default [] (r_tags issue) |}.

(** The two predicates of the filter, together. *)
Definition kept (changed_files : gset string) (threshold_rank : Z)
    (issue : raw_issue) : Prop :=
  threshold_rank ≤ issue_rank issue ∧ issue_file_path issue ∈ changed_files.

#[global] Instance kept_dec changed_files threshold_rank issue :
  Decision (kept changed_files threshold_rank issue).
Proof. unfold kept. apply _. Defined.

(** What [filter_issues] keeps, in the order of arrival. *)
Definition kept_findings (changed_files : gset string) (threshold_rank : Z)
    (raw_issues : list raw_issue) : list finding :=
  finding_of <$> filter (kept changed_files threshold_rank) raw_issues.

Definition str_lt (s t : string) : Prop := String.ltb s t = true.

(** Severity rank descending, then file, line and key ascending. *)
Definition finding_order (f g : finding) : Prop :=
  rankOf (f_severity g) < rankOf (f_severity f) ∨
  rankOf (f_severity f) = rankOf (f_severity g) ∧
  (str_lt (f_file f) (f_file g) ∨
   f_file f = f_file g ∧
   (int_value (f_line f) < int_value (f_line g) ∨
    int_value (f_line f) = int_value (f_line g) ∧
    (str_lt (f_key f) (f_key g) ∨ f_key f = f_key g))).

Definition is_request (ev : event) : bool :=
  match ev with EvRequest _ => true | _ => false end.

Definition is_write (ev : event) : bool :=
  match ev with EvWriteJson _ _ | EvWriteText _ _ => true | _ => false end.

(** *** Pagination *)

Section pages.
Context (w : world) (host_url project_key : string)
  (headers : list (string * header_value)).

(** The decoded answer to the request for a page, if there is one. *)
Definition page_payload (page : nat) : option payload :=
  match urlopen w (search_request host_url project_key headers
                     (Z.of_nat page)) with
  | Body p => Some p
  | _ => None
  end.

Definition page_issues (page : nat) : list raw_issue :=
  match page_payload page with
  | Some p => default [] (issues p)
  | None => []
  end.

(** The issues of the pages [1..n], in order. *)
Fixpoint pages_issues (n : nat) : list raw_issue :=
  match n with
  | O => []
  | S n' => pages_issues n' ++ page_issues n
  end.

(** [page * pageSize >= total], from the paging data of the answer [p]
    to the request for [page]; [held] is the number of issues
    accumulated so far, which stands in for an absent [total]. *)
Definition stop_at (page : nat) (held : nat) (p : payload) : bool :=
  let pg := default (Paging None None) (paging p) in
  Z.of_nat page * default 500 (pageSize pg)
  >=? default (Z.of_nat held) (total pg).

(** Page [n] is the first whose answer meets the test. *)
Definition stops_first_at (n : nat) : Prop :=
  ∀ i, (1 ≤ i ≤ n)%nat →
    ∃ p, page_payload i = Some p ∧
         stop_at i (length (pages_issues i)) p = bool_decide (i = n).

(** The requests for the pages [1..n], in order. *)
Definition requests (n : nat) : list event :=
  (λ i, EvRequest (search_request host_url project_key headers (Z.of_nat i)))
    <$> seq 1 n.
End pages.

(** *** The stages of [main] *)

Section stages.
Context (w : world) (fuel : nat) (a : args).

Definition threshold_of : string :=
  Py.strip (Py.lower (severity_threshold a)).

Definition headers_of : list (string * header_value) :=
  build_headers (token a) (user a) (password a).

(** The set [load_changed_files] builds from the lines of the file. *)
Definition changed_of (lines : list string) : gset string :=
  foldl load_step ∅ lines.

Definition fetch_result : option (result (list raw_issue)) :=
  (run (fetch_issues w fuel (host_url a) (project_key a) headers_of) []).1.

Definition fetch_events : list event :=
  (run (fetch_issues w fuel (host_url a) (project_key a) headers_of) []).2.

(** The run gets through validation, loading, fetching and filtering,
    and the filter returns [findings]. *)
Definition pipeline_findings (findings : list finding) : Prop :=
  ∃ sev lines raw_issues,
    THRESHOLD_TO_SEVERITY !! threshold_of = Some sev ∧
    file_lines w (changed_files a) = Some lines ∧
    fetch_result = Some (Ok raw_issues) ∧
    filter_issues raw_issues (changed_of lines) threshold_of = Ok findings.

(** The dictionary [main] hands to [json.dump]. *)
Definition output_of (changed : gset string) (findings : list finding)
    : report :=
  {| rep_summary :=
       {| s_project_key := project_key a;
          s_severity_threshold := threshold_of;
          s_changed_files := Z.of_nat (size changed);
          s_findings := Z.of_nat (length findings);
          s_severity_counts := severity_counts findings |};
     rep_findings := findings |}.

Definition exit_status (findings : list finding) : Z :=
  match findings with [] => 0 | _ => 3 end.

(** What [main] does once the findings are there. *)
Definition report_phase (changed : gset string) (findings : list finding)
    : M Z :=
  makedirs_for w (output_json a);;
  makedirs_for w (output_md a);;
  write_json w (output_json a) (output_of changed findings);;
  write_markdown w (output_md a) (project_key a) threshold_of
    (Z.of_nat (size changed)) findings;;
  mret (exit_status findings).
End stages.

(** *** Predicates for the further properties *)

Section pages_more.
Context (w : world) (host_url project_key : string)
  (headers : list (string * header_value)).

(** The pages before [n] are answered by bodies that do not meet the
    test of the loop. *)
Definition continues_before (n : nat) : Prop :=
  ∀ i, (1 ≤ i < n)%nat →
    ∃ p, page_payload w host_url project_key headers i = Some p ∧
         stop_at i (length (pages_issues w host_url project_key headers i)) p
         = false.
End pages_more.

(** Every [|] of the string directly follows a backslash; [escaped] tells
    whether the character before the string is a backslash. *)
Fixpoint pipes_escaped (escaped : bool) (s : string) : bool :=
  match s with
  | EmptyString => true
  | String a s' =>
      if Ascii.eqb a "|" then escaped && pipes_escaped false s'
      else pipes_escaped (Ascii.eqb a backslash) s'
  end.

(** The number of findings of a severity. *)
Definition count_severity (severity : string) (findings : list finding) : Z :=
  Z.of_nat (length (filter (λ f, f_severity f = severity) findings)).

(** The order of the pairs [(severity, count)] that [sorted] uses. *)
Definition item_order (x y : string * Z) : Prop :=
  str_lt x.1 y.1 ∨ x.1 = y.1 ∧ x.2 ≤ y.2.

(** ** Sample inputs *)

(** The scenario of the specification: three issues, two changed files. *)
Definition sample_issue (key severity component : string) (line : Z)
    : raw_issue :=
  {| r_key := Some key; r_rule := Some "python:S1481"; r_type := Some "CODE_SMELL";
     r_severity := Some severity; r_message := Some "Remove this variable.";
     r_component := Some component; r_line := Some (JInt line);
     r_textRange := None; r_status := Some "OPEN"; r_effort := Some "5min";
     r_tags := Some ["unused"] |}.

Definition sample_issues : list raw_issue :=
  [ sample_issue "AX1" "MAJOR" "proj:src/a.py" 10;
    sample_issue "AX2" "MINOR" "proj:src/a.py" 5;
    sample_issue "AX3" "CRITICAL" "proj:src/c.py" 7 ].

Definition sample_changed : gset string := {[ "src/a.py"; "src/b.py" ]}.

(** A world in which the file [changed.txt] lists the two files, with a
    blank line and two spellings of [src/a.py], and the server answers
    every request with the three sample issues on one page. *)
Definition sample_world : world :=
  {| file_lines := λ path,
       if String.eqb path "changed.txt"
       then Some ["src/a.py" +:+ nl; nl; "./src/b.py" +:+ nl; "src/../src/a.py"]
       else None;
     urlopen := λ _,
       Body {| issues := Some sample_issues;
               paging := Some (Paging (Some 3) (Some 500)) |};
     can_makedirs := λ _, true;
     can_write := λ _, true |}.

Definition sample_args (threshold : string) : args :=
  {| host_url := "https://sonar.example/"; project_key := "proj";
     changed_files := "changed.txt"; severity_threshold := threshold;
     output_json := "out/issues.json"; output_md := "out/issues.md";
     token := "secret"; user := ""; password := "" |}.

(** A server that reports [total=1200, pageSize=500] with every answer and
    serves 500, 500 and 200 issues on the pages 1, 2 and 3. *)
Definition paged_world : world :=
  {| file_lines := λ _, Some [];
     urlopen := λ req,
       let count :=
         match req_query req !! 3%nat with
         | Some (_, "1") | Some (_, "2") => 500%nat
         | _ => 200%nat
         end in
       Body {| issues := Some (replicate count
                                 (sample_issue "AX" "MAJOR" "proj:src/a.py" 1));
               paging := Some (Paging (Some 1200) (Some 500)) |};
     can_makedirs := λ _, true;
     can_write := λ _, true |}.

(** A host that cannot be reached. *)
Definition unreachable_world : world :=
  {| file_lines := λ _, Some ["src/a.py"];
     urlopen := λ _, URLError "Connection refused";
     can_makedirs := λ _, true;
     can_write := λ _, true |}.

Definition file_level_finding : finding :=
  {| f_key := "AX9"; f_rule := "python:S100"; f_type := "BUG";
     f_severity := "MAJOR"; f_message := "a|b"; f_file := "src/a.py";
     f_line := PInt 0; f_status := "OPEN"; f_effort := ""; f_tags := [] |}.

(** A server whose second page fails with an HTTP error. *)
Definition failing_world : world :=
  {| file_lines := λ _, Some ["src/a.py"];
     urlopen := λ req,
       match req_query req !! 3%nat with
       | Some (_, "1") =>
           Body {| issues := Some sample_issues;
                   paging := Some (Paging (Some 1200) (Some 500)) |}
       | _ => HTTPError 503 "Service Unavailable"
       end;
     can_makedirs := λ _, true;
     can_write := λ _, true |}.

(** A server that reports a page size of 0 with every answer. *)
Definition stuck_world : world :=
  {| file_lines := λ _, Some ["src/a.py"];
     urlopen := λ _,
       Body {| issues := Some sample_issues;
               paging := Some (Paging (Some 3) (Some 0)) |};
     can_makedirs := λ _, true;
     can_write := λ _, true |}.

(** A server that answers without paging data. *)
Definition plain_world : world :=
  {| file_lines := λ _, Some ["src/a.py"];
     urlopen := λ _, Body {| issues := Some sample_issues; paging := None |};
     can_makedirs := λ _, true;
     can_write := λ _, true |}.

(** A world in which the changed-file list cannot be opened. *)
Definition unreadable_world : world :=
  {| file_lines := λ _, None;
     urlopen := urlopen sample_world;
     can_makedirs := λ _, true;
     can_write := λ _, true |}.

(** A world in which the markdown report cannot be written. *)
Definition readonly_md_world : world :=
  {| file_lines := file_lines sample_world;
     urlopen := urlopen sample_world;
     can_makedirs := λ _, true;
     can_write := λ path, String.eqb path "out/issues.json" |}.
Example normalize_ex1 : normalize_path "./a/b" = "a/b".
Proof. reflexivity. Qed.
Example normalize_ex2 : normalize_path "a/b" = "a/b".
Proof. reflexivity. Qed.
Example normalize_ex3 : normalize_path "" = ".".
Proof. reflexivity. Qed.
Example normalize_ex4 : normalize_path "  //x/../y/./z//  " = "//y/z".
Proof. reflexivity. Qed.
Example normalize_ex5 : normalize_path "../../a/../../b" = "../../../b".
Proof. reflexivity. Qed.
Example normalize_ex6 : normalize_path "./ a" = " a".
Proof. reflexivity. Qed.
Example normalize_ex7 : normalize_path (String "a" (String backslash "./b")) = "a/./b".
Proof. reflexivity. Qed.
Example normalize_ex8 : normalize_path "/../a" = "/a".
Proof. reflexivity. Qed.

(** ** Facts about the string primitives *)

Section string_facts.

Lemma app_nil_l (t : string) : "" +:+ t = t.
Proof. reflexivity. Qed.

Lemma app_cons (a : ascii) (s t : string) :
  String a s +:+ t = String a (s +:+ t).
Proof. reflexivity. Qed.

Lemma app_empty_r (s : string) : s +:+ "" = s.
Proof.
  induction s as [|a s IH]; [done|]. by rewrite app_cons, IH.
Qed.

Lemma contains_app c (s t : string) :
  Py.contains c (s +:+ t) = Py.contains c s || Py.contains c t.
Proof.
  induction s as [|a s IH]; [done|]. rewrite app_cons. simpl.
  destruct (Ascii.eqb a c); [done|apply IH].
Qed.

Lemma split_nonempty sep s : Py.split sep s ≠ [].
Proof.
  destruct s as [|a s]; simpl; [done|].
  destruct (Ascii.eqb a sep); [done|]. by destruct (Py.split sep s).
Qed.

(** No piece of [s.split(sep)] contains [sep]; a character absent from
    [s] is absent from every piece. *)
Lemma split_contains c sep s :
  c = sep ∨ Py.contains c s = false →
  Forall (λ w, Py.contains c w = false) (Py.split sep s).
Proof.
  induction s as [|a s IH]; intros Hc; simpl.
  { by repeat constructor. }
  destruct (Ascii.eqb_spec a sep) as [->|Hne].
  - constructor; [done|]. apply IH. destruct Hc as [?|Hc]; [by left|].
    right. simpl in Hc. by destruct (Ascii.eqb sep c).
  - assert (Ascii.eqb a c = false ∧ (c = sep ∨ Py.contains c s = false))
      as [Hac Hc'].
    { destruct Hc as [->|Hc].
      - split; [|by left]. by apply Ascii.eqb_neq.
      - simpl in Hc. destruct (Ascii.eqb a c); [done|]. by split; [|right]. }
    specialize (IH Hc').
    destruct (Py.split sep s) as [|w ws]; simpl.
    + repeat constructor. simpl. by rewrite Hac.
    + inversion_clear IH. constructor; [|done]. simpl. by rewrite Hac.
Qed.

(** After the test [sep in s], index 1 of [s.split(sep, 1)] exists. *)
Lemma split1_lookup_1 sep s :
  Py.contains sep s = true → is_Some (Py.split1 sep s !! 1%nat).
Proof.
  induction s as [|a s IH]; simpl; [done|].
  destruct (Ascii.eqb a sep); [by eexists|]. intros Hs.
  destruct (IH Hs) as [t Ht]. exists t.
  by destruct (Py.split1 sep s).
Qed.

Lemma split_cons_sep sep s :
  Py.split sep (String sep s) = "" :: Py.split sep s.
Proof. simpl. by rewrite Ascii.eqb_refl. Qed.

Lemma split_no_sep sep w :
  Py.contains sep w = false → Py.split sep w = [w].
Proof.
  induction w as [|a w IH]; simpl; [done|].
  destruct (Ascii.eqb a sep); [done|]. intros H. by rewrite IH.
Qed.

Lemma split_app_sep sep w s :
  Py.contains sep w = false →
  Py.split sep (w +:+ String sep s) = w :: Py.split sep s.
Proof.
  induction w as [|a w IH]; [rewrite app_nil_l|rewrite app_cons]; simpl.
  { intros _. by rewrite Ascii.eqb_refl. }
  destruct (Ascii.eqb a sep); [done|]. intros H. by rewrite IH.
Qed.

(** [sep.join(l).split(sep) == l] when [l] is not empty and no element
    contains the separator. *)
Lemma split_join sep (l : list string) :
  l ≠ [] → Forall (λ w, Py.contains sep w = false) l →
  Py.split sep (Py.join (String sep "") l) = l.
Proof.
  induction l as [|w l IH]; [done|]. intros _ Hl.
  inversion_clear Hl as [|?? Hw Hl']. destruct l as [|w' l].
  - simpl. by apply split_no_sep.
  - change (Py.join (String sep "") (w :: w' :: l))
      with (w +:+ String sep (Py.join (String sep "") (w' :: l))).
    rewrite split_app_sep by done. f_equal. by apply IH.
Qed.

Lemma contains_join c sep (l : list string) :
  Py.contains c sep = false →
  Forall (λ w, Py.contains c w = false) l →
  Py.contains c (Py.join sep l) = false.
Proof.
  intros Hsep. induction l as [|w l IH]; [done|]. intros Hl.
  inversion_clear Hl as [|?? Hw Hl']. destruct l as [|w' l]; [done|].
  change (Py.join sep (w :: w' :: l))
    with (w +:+ sep +:+ Py.join sep (w' :: l)).
  rewrite !contains_app, Hw, Hsep. by apply IH.
Qed.

Lemma replace_absent old new s :
  Py.contains old s = false → Py.replace old new s = s.
Proof.
  induction s as [|a s IH]; simpl; [done|].
  destruct (Ascii.eqb a old); [done|]. intros H. by rewrite IH.
Qed.

Lemma contains_lstrip c s :
  Py.contains c s = false → Py.contains c (Py.lstrip s) = false.
Proof.
  induction s as [|a s IH]; simpl; [done|].
  destruct (Ascii.eqb a c) eqn:Hac; [done|]. intros H.
  destruct (Py.isspace a); simpl; [auto|]. by rewrite Hac.
Qed.

Lemma contains_rstrip c s :
  Py.contains c s = false → Py.contains c (Py.rstrip s) = false.
Proof.
  induction s as [|a s IH]; simpl; [done|].
  destruct (Ascii.eqb a c) eqn:Hac; [done|]. intros H. specialize (IH H).
  destruct (Py.rstrip s); simpl.
  - destruct (Py.isspace a); simpl; [done|]. by rewrite Hac.
  - by rewrite Hac.
Qed.

Lemma contains_strip c s :
  Py.contains c s = false → Py.contains c (Py.strip s) = false.
Proof. intros. by apply contains_rstrip, contains_lstrip. Qed.

Lemma contains_drop c n s :
  Py.contains c s = false → Py.contains c (Py.drop n s) = false.
Proof.
  revert s. induction n as [|n IH]; intros [|a s]; simpl; try done.
  destruct (Ascii.eqb a c); [done|]. apply IH.
Qed.

End string_facts.

(** ** The shape of what [normpath] returns *)

Section normpath_facts.

Lemma clean_nil k : clean k [].
Proof. split; [constructor|constructor|]. intros _. apply not_elem_of_nil. Qed.

Lemma clean_removelast k l : clean k l → clean k (removelast l).
Proof.
  destruct l as [|x l] using rev_ind; [done|]. clear IHl.
  rewrite removelast_last. intros [Hc Hl Hr]. split.
  - by apply Forall_app in Hc as [? _].
  - by apply StronglySorted_app_1_l in Hl.
  - intros Hk Hin. apply (Hr Hk), elem_of_app. by left.
Qed.

Lemma normpath_step_clean k l c :
  clean k l → Py.contains slash c = false → clean k (normpath_step k l c).
Proof.
  intros Hcl Hc. unfold normpath_step.
  destruct (String.eqb_spec c "") as [->|Hne]; [done|].
  destruct (String.eqb_spec c ".") as [->|Hnd]; [done|]. simpl.
  destruct (String.eqb_spec c "..") as [->|Hndd]; simpl.
  - destruct (Nat.eqb_spec k 0) as [->|Hk]; simpl.
    + case_bool_decide as Hnil; simpl.
      { subst l. by split; [repeat constructor..|intros []]. }
      case_bool_decide as Hlast; [|by apply clean_removelast].
      destruct Hcl as [Hcs Hl _]. split; [| |by intros []].
      * apply Forall_app. split; [done|]. by repeat constructor.
      * apply StronglySorted_app_2; [|done|by repeat constructor].
        intros x1 x2 Hx1 ->%list_elem_of_singleton _.
        apply last_Some in Hlast as [l' ->].
        apply elem_of_app in Hx1 as [Hx1| ->%list_elem_of_singleton]; [|done].
        refine (StronglySorted_app_1_elem_of dotdot_rel l' [".."] x1 ".."
                  Hl Hx1 _ eq_refl).
        by apply list_elem_of_singleton.
    + case_bool_decide as Hnil; simpl; [done|].
      case_bool_decide as Hlast; [|by apply clean_removelast].
      destruct Hcl as [_ _ Hr]. destruct (Hr Hk).
      apply last_Some in Hlast as [l' ->]. apply elem_of_app. right.
      by apply list_elem_of_singleton.
  - destruct Hcl as [Hcs Hl Hr]. split.
    + apply Forall_app. split; [done|]. by repeat constructor.
    + apply StronglySorted_app_2; [|done|by repeat constructor].
      by intros x1 x2 _ ->%list_elem_of_singleton ?.
    + intros Hk [Hin|Heq%list_elem_of_singleton]%elem_of_app; [|done].
      by apply Hr.
Qed.

Lemma normpath_foldl_clean k comps l :
  clean k l → Forall (λ c, Py.contains slash c = false) comps →
  clean k (foldl (normpath_step k) l comps).
Proof.
  revert l. induction comps as [|c comps IH]; intros l Hl Hcs; [done|].
  inversion_clear Hcs. simpl. apply IH; [|done].
  by apply normpath_step_clean.
Qed.

(** On a list that is already normalised the loop changes nothing. *)
Lemma normpath_foldl_fix k l0 l :
  clean k (l0 ++ l) → foldl (normpath_step k) l0 l = l0 ++ l.
Proof.
  revert l0. induction l as [|c l IH]; intros l0 Hcl.
  { by rewrite app_nil_r. }
  simpl. rewrite cons_middle, (assoc_L (++)) in Hcl.
  assert (normpath_step k l0 c = l0 ++ [c]) as ->.
  2:{ rewrite (IH _ Hcl). by rewrite <-(assoc_L (++)). }
  destruct Hcl as [Hcs Hl Hr].
  apply Forall_app in Hcs as [Hcs _]. apply Forall_app in Hcs as [_ Hc].
  apply Forall_singleton in Hc as (Hne & Hnd & _).
  unfold normpath_step.
  destruct (String.eqb_spec c "") as [->|_]; [done|].
  destruct (String.eqb_spec c ".") as [->|_]; [done|]. simpl.
  destruct (String.eqb_spec c "..") as [->|_]; simpl; [|done].
  destruct (Nat.eqb_spec k 0) as [->|Hk]; simpl.
  - case_bool_decide as Hnil; simpl; [done|].
    rewrite bool_decide_true; [done|].
    destruct l0 as [|x l0 _] using rev_ind; [done|].
    rewrite last_snoc. f_equal.
    apply StronglySorted_app_1_l in Hl.
    refine (StronglySorted_app_1_elem_of dotdot_rel (l0 ++ [x]) [".."] x ".."
              Hl _ _ eq_refl).
    + apply elem_of_app. right. by apply list_elem_of_singleton.
    + by apply list_elem_of_singleton.
  - destruct (Hr Hk). apply elem_of_app. left. apply elem_of_app. right.
    by apply list_elem_of_singleton.
Qed.

End normpath_facts.

Section normalize_facts.

Lemma normpath_step_subseteq k l c : normpath_step k l c ⊆ l ++ [c].
Proof.
  unfold normpath_step. intros x Hx. apply elem_of_app.
  repeat case_match; try (by left); try (by apply elem_of_app in Hx).
  left. destruct l as [|y l _] using rev_ind; [done|].
  rewrite removelast_last in Hx. apply elem_of_app. by left.
Qed.

Lemma normpath_foldl_subseteq k comps l :
  foldl (normpath_step k) l comps ⊆ l ++ comps.
Proof.
  revert l. induction comps as [|c comps IH]; intros l; simpl.
  { by rewrite app_nil_r. }
  intros x Hx. apply IH in Hx.
  apply elem_of_app in Hx as [Hx%normpath_step_subseteq|Hx].
  - rewrite cons_middle, (assoc_L (++)). apply elem_of_app. by left.
  - apply elem_of_app. right. by right.
Qed.

Lemma startswith_cons a b s t :
  Py.startswith (String b t) (String a s)
  = if Ascii.eqb a b then Py.startswith t s else false.
Proof.
  unfold Py.startswith. simpl.
  destruct (ascii_dec a b) as [->|Hne].
  - by rewrite Ascii.eqb_refl.
  - by apply Ascii.eqb_neq in Hne as ->.
Qed.

Lemma startswith_empty_r s : Py.startswith s "" = true.
Proof. by destruct s. Qed.

Lemma join_cons_cons sep (c c' : string) l :
  Py.join sep (c :: c' :: l) = c +:+ sep +:+ Py.join sep (c' :: l).
Proof. reflexivity. Qed.

(** The joined components do not begin with a separator ... *)
Lemma join_clean_no_slash k l :
  clean k l → Py.startswith (Py.join "/" l) "/" = false.
Proof.
  intros [Hcs _ _]. destruct l as [|c l]; [done|].
  inversion_clear Hcs as [|?? (Hne & _ & Hsl) _].
  destruct c as [|a c]; [done|]. simpl in Hsl.
  destruct (Ascii.eqb a slash) eqn:Ha; [done|].
  rewrite Ascii.eqb_sym in Ha.
  destruct l; [simpl|rewrite join_cons_cons, app_cons];
    by rewrite startswith_cons, Ha.
Qed.

(** ... nor with [./]. *)
Lemma join_clean_no_dot_slash k l :
  clean k l → Py.startswith (Py.join "/" l) "./" = false.
Proof.
  intros [Hcs _ _]. destruct l as [|c l]; [done|].
  inversion_clear Hcs as [|?? (Hne & Hnd & Hsl) _].
  destruct c as [|a [|b c]]; [done|..].
  - destruct l; [simpl|rewrite join_cons_cons, app_cons];
      rewrite startswith_cons;
      (destruct (Ascii.eqb_spec "." a) as [<-|]; [done|done]).
  - simpl in Hsl. destruct (Ascii.eqb a slash); [done|].
    destruct (Ascii.eqb b slash) eqn:Hb; [done|].
    rewrite Ascii.eqb_sym in Hb.
    destruct l; [simpl|rewrite join_cons_cons, !app_cons];
      rewrite !startswith_cons, Hb; by destruct (Ascii.eqb "." a).
Qed.

Lemma initial_slashes_le path : (initial_slashes path ≤ 2)%nat.
Proof. unfold initial_slashes. repeat case_match; lia. Qed.

Lemma initial_slashes_prefix k s :
  (k ≤ 2)%nat → Py.startswith s "/" = false →
  initial_slashes (Py.repeat_char slash k +:+ s) = k.
Proof.
  intros Hk Hs. unfold initial_slashes.
  destruct k as [|[|[|k]]]; [..|lia]; simpl; rewrite ?app_cons, ?app_nil_l.
  - by rewrite Hs.
  - destruct s as [|a s]; [done|].
    rewrite startswith_cons, startswith_empty_r in Hs.
    destruct (Ascii.eqb "/" a) eqn:Ha; [done|].
    by rewrite !startswith_cons, !Ascii.eqb_refl, ?Ha, !startswith_empty_r.
  - destruct s as [|a s]; [done|].
    rewrite startswith_cons, startswith_empty_r in Hs.
    destruct (Ascii.eqb "/" a) eqn:Ha; [done|].
    by rewrite !startswith_cons, !Ascii.eqb_refl, ?Ha, !startswith_empty_r.
Qed.

Lemma split_repeat_prefix k s :
  Py.split slash (Py.repeat_char slash k +:+ s)
  = replicate k "" ++ Py.split slash s.
Proof.
  induction k as [|k IH]; [done|].
  change (Py.repeat_char slash (S k) +:+ s)
    with (String slash (Py.repeat_char slash k +:+ s)).
  by rewrite split_cons_sep, IH.
Qed.

Lemma normpath_foldl_skip k n l comps :
  foldl (normpath_step k) l (replicate n "" ++ comps)
  = foldl (normpath_step k) l comps.
Proof. induction n as [|n IH]; [done|]. simpl. apply IH. Qed.

(** A path that already has the shape [normpath] produces is left alone. *)
Lemma normpath_of_clean k l :
  (k ≤ 2)%nat → clean k l →
  Py.repeat_char slash k +:+ Py.join "/" l ≠ "" →
  normpath (Py.repeat_char slash k +:+ Py.join "/" l)
  = Py.repeat_char slash k +:+ Py.join "/" l.
Proof.
  intros Hk Hcl Hne. unfold normpath.
  destruct (String.eqb_spec (Py.repeat_char slash k +:+ Py.join "/" l) "");
    [done|].
  rewrite initial_slashes_prefix by eauto using join_clean_no_slash.
  rewrite split_repeat_prefix, normpath_foldl_skip.
  assert (foldl (normpath_step k) [] (Py.split slash (Py.join "/" l)) = l)
    as ->.
  { destruct l as [|c l]; [done|].
    rewrite (split_join slash) by
      first [done|eapply Forall_impl; [apply Hcl|by intros ? (_&_&?)]].
    by apply (normpath_foldl_fix k []). }
  by destruct (String.eqb_spec (Py.repeat_char slash k +:+ Py.join "/" l) "").
Qed.

(** What [normpath] returns: [.], or up to two slashes followed by
    normalised components, each of them a piece of the argument. *)
Lemma normpath_shape q :
  normpath q = "." ∨
  ∃ k l, (k ≤ 2)%nat ∧ clean k l ∧ l ⊆ Py.split slash q ∧
         normpath q = Py.repeat_char slash k +:+ Py.join "/" l ∧
         normpath q ≠ "".
Proof.
  unfold normpath. destruct (String.eqb_spec q ""); [by left|].
  set (k := initial_slashes q).
  set (l := foldl (normpath_step k) [] (Py.split slash q)).
  destruct (String.eqb_spec (Py.repeat_char slash k +:+ Py.join "/" l) "");
    [by left|].
  right. exists k, l. split_and!; [apply initial_slashes_le| | |done..].
  - apply normpath_foldl_clean; [apply clean_nil|].
    apply split_contains. by left.
  - apply (normpath_foldl_subseteq k _ []).
Qed.

Lemma normpath_idempotent q : normpath (normpath q) = normpath q.
Proof.
  destruct (normpath_shape q) as [->|(k & l & Hk & Hcl & _ & Hq & Hne)];
    [done|].
  rewrite Hq in Hne |- *. by apply normpath_of_clean.
Qed.

Lemma normpath_no_dot_slash q : Py.startswith (normpath q) "./" = false.
Proof.
  destruct (normpath_shape q) as [->|(k & l & Hk & Hcl & _ & -> & _)];
    [done|].
  destruct k as [|k]; [by eapply join_clean_no_dot_slash|done].
Qed.

Lemma normpath_contains c q :
  c ≠ slash → c ≠ "."%char →
  Py.contains c q = false → Py.contains c (normpath q) = false.
Proof.
  intros Hsl Hdot Hq.
  assert (∀ a s, a ≠ c → Py.contains c (String a s) = Py.contains c s)
    as Hcons.
  { intros a s Ha. change (Py.contains c (String a s))
      with (if Ascii.eqb a c then true else Py.contains c s).
    by apply Ascii.eqb_neq in Ha as ->. }
  destruct (normpath_shape q) as [->|(k & l & Hk & Hcl & Hsub & -> & _)].
  { by rewrite Hcons. }
  rewrite contains_app. apply orb_false_intro.
  - clear -Hsl Hcons. induction k as [|k IH]; [done|].
    change (Py.repeat_char slash (S k))
      with (String slash (Py.repeat_char slash k)).
    by rewrite Hcons.
  - apply contains_join; [by rewrite Hcons|].
    apply Forall_forall. intros w Hw%Hsub. revert w Hw.
    apply Forall_forall, split_contains. by right.
Qed.

End normalize_facts.

(** ** The order of the sort keys *)

Section order_facts.

Lemma ltb_leb s t : String.ltb s t = true ↔ String.leb s t = true ∧ s ≠ t.
Proof.
  unfold String.ltb, String.leb. rewrite String.compare_antisym.
  destruct (String.compare t s) eqn:Hc; simpl.
  - apply String.compare_eq_iff in Hc as ->. by split; [|intros []].
  - by split; [|intros []].
  - split; [intros _|done]. split; [done|]. intros ->.
    assert (String.leb t t = true) as Hrefl.
    { apply Is_true_true. change (String.le t t). done. }
    unfold String.leb in Hrefl. by rewrite Hc in Hrefl.
Qed.

Lemma str_lt_irrefl s : ¬ str_lt s s.
Proof. unfold str_lt. rewrite ltb_leb. by intros [_ []]. Qed.

Lemma str_lt_trans s t u : str_lt s t → str_lt t u → str_lt s u.
Proof.
  unfold str_lt. rewrite !ltb_leb.
  intros [Hst Hne1] [Htu Hne2]. split.
  - apply Is_true_true. apply Is_true_true in Hst, Htu.
    change (String.le s u). by etrans.
  - intros ->. destruct Hne1. by apply String.leb_antisym.
Qed.

Lemma str_lt_total s t : str_lt s t ∨ s = t ∨ str_lt t s.
Proof.
  unfold str_lt. rewrite !ltb_leb.
  destruct (decide (s = t)) as [->|Hne]; [by right; left|].
  destruct (String.leb_total s t); [left|right; right]; by split.
Qed.

Lemma str_lt_asym s t : str_lt s t → ¬ str_lt t s.
Proof. intros H1 H2. by apply (str_lt_irrefl s), (str_lt_trans s t s). Qed.

Lemma eqb_false_ne s t : String.eqb s t = false ↔ s ≠ t.
Proof. by rewrite String.eqb_neq. Qed.

#[global] Instance finding_order_trans : Transitive finding_order.
Proof.
  intros f g h. unfold finding_order.
  pose proof (str_lt_trans (f_file f) (f_file g) (f_file h)).
  pose proof (str_lt_trans (f_key f) (f_key g) (f_key h)).
  intros [?|[? [?|[? [?|[? [?|?]]]]]]] [?|[? [?|[? [?|[? [?|?]]]]]]];
    repeat first
      [ by left; first [lia|congruence|eauto]
      | right; split; [first [lia|congruence]|] ];
    by right; congruence.
Qed.

(** The comparison of the key tuples decides the order of the findings. *)
Lemma sort_key_lt_true f g :
  sort_key_lt (finding_sort_key f) (finding_sort_key g) = true →
  finding_order f g.
Proof.
  unfold sort_key_lt, finding_sort_key, finding_order.
  destruct (Z.eqb_spec (- rankOf (f_severity f)) (- rankOf (f_severity g)));
    simpl; [|intros ?%Z.ltb_lt; left; lia].
  destruct (String.eqb_spec (f_file f) (f_file g)); simpl;
    [|intros ?; right; split; [lia|by left]].
  destruct (Z.eqb_spec (int_value (f_line f)) (int_value (f_line g)));
    simpl; [|intros ?%Z.ltb_lt; right; split; [lia|right; split; [done|left; lia]]].
  destruct (String.eqb_spec (f_key f) (f_key g)); simpl; [done|].
  intros ?. right. split; [lia|]. right. split; [done|]. right.
  split; [done|]. by left.
Qed.

Lemma sort_key_lt_false f g :
  sort_key_lt (finding_sort_key f) (finding_sort_key g) = false →
  finding_order g f.
Proof.
  unfold sort_key_lt, finding_sort_key, finding_order.
  destruct (Z.eqb_spec (- rankOf (f_severity f)) (- rankOf (f_severity g)));
    simpl; [|intros ?%Z.ltb_ge; left; lia].
  destruct (String.eqb_spec (f_file f) (f_file g)) as [Hf|Hf]; simpl.
  2:{ intros Hlt. right. split; [lia|]. left.
      destruct (str_lt_total (f_file f) (f_file g)) as [?|[?|?]];
        [unfold str_lt in *; congruence|done..]. }
  destruct (Z.eqb_spec (int_value (f_line f)) (int_value (f_line g)));
    simpl; [|intros ?%Z.ltb_ge; right; split; [lia|right; split; [done|left; lia]]].
  destruct (String.eqb_spec (f_key f) (f_key g)) as [Hk|Hk]; simpl.
  { intros _. right. split; [lia|]. right. split; [done|]. right.
    split; [done|]. by right. }
  intros Hlt. right. split; [lia|]. right. split; [done|]. right.
  split; [done|]. left.
  destruct (str_lt_total (f_key f) (f_key g)) as [?|[?|?]];
    [unfold str_lt in *; congruence|done..].
Qed.

End order_facts.

(** ** The sort *)

Section sort_facts.
Context {A K : Type} (lt : K → K → bool) (key : A → K).

Lemma insert_sorted_perm x l : insert_sorted lt key x l ≡ₚ x :: l.
Proof.
  induction l as [|y l IH]; simpl; [done|].
  destruct (lt (key y) (key x)); [|done].
  rewrite IH. apply Permutation_swap.
Qed.

Lemma list_sort_perm l : list_sort lt key l ≡ₚ l.
Proof.
  induction l as [|x l IH]; simpl; [done|].
  by rewrite insert_sorted_perm, IH.
Qed.

(** The sort is stable: elements with the same key keep their order. *)
Lemma insert_sorted_stable `{!EqDecision K} x l k :
  (∀ k', lt k' k' = false) →
  filter (λ y, key y = k) (insert_sorted lt key x l)
  = filter (λ y, key y = k) (x :: l).
Proof.
  intros Hirr. induction l as [|y l IH]; simpl; [done|].
  destruct (lt (key y) (key x)) eqn:Hyx; [|done].
  rewrite filter_cons, IH, !(filter_cons _ x), (filter_cons _ y).
  destruct (decide (key y = k)) as [Hy|]; [|done].
  destruct (decide (key x = k)) as [Hx|]; [|done].
  rewrite Hy, Hx, Hirr in Hyx. done.
Qed.

Lemma list_sort_stable `{!EqDecision K} l k :
  (∀ k', lt k' k' = false) →
  filter (λ y, key y = k) (list_sort lt key l) = filter (λ y, key y = k) l.
Proof.
  intros Hirr. induction l as [|x l IH]; simpl; [done|].
  rewrite insert_sorted_stable by done.
  by rewrite !(filter_cons _ x), IH.
Qed.

Context (R : relation A).
Context (Hlt : ∀ x y, lt (key x) (key y) = true → R x y).
Context (Hge : ∀ x y, lt (key x) (key y) = false → R y x).

Lemma insert_sorted_Sorted x l :
  Sorted R l → Sorted R (insert_sorted lt key x l).
Proof.
  induction 1 as [|y l Hl IH Hhd]; simpl; [by repeat constructor|].
  destruct (lt (key y) (key x)) eqn:Hyx.
  - constructor; [done|].
    destruct Hhd as [|z l' Hyz]; simpl.
    + constructor. by apply Hlt.
    + destruct (lt (key z) (key x)); constructor; [done|by apply Hlt].
  - constructor; [by constructor|]. constructor. by apply Hge.
Qed.

Lemma list_sort_Sorted l : Sorted R (list_sort lt key l).
Proof.
  induction l as [|x l IH]; simpl; [constructor|].
  by apply insert_sorted_Sorted.
Qed.

End sort_facts.

Lemma StronglySorted_lookup {A} (R : relation A) (l : list A) i j x y :
  StronglySorted R l → (i < j)%nat →
  l !! i = Some x → l !! j = Some y → R x y.
Proof.
  intros Hl. revert i j. induction Hl as [|z l Hl IH Hall]; intros i j Hij Hi Hj.
  { by rewrite lookup_nil in Hi. }
  destruct j as [|j]; [lia|]. simpl in Hj. destruct i as [|i]; simpl in Hi.
  - inversion Hi; subst. rewrite Forall_forall in Hall.
    apply Hall. by eapply list_elem_of_lookup_2.
  - apply (IH i j); [lia|done..].
Qed.

(** ** The tables *)

Section table_facts.

Lemma SEVERITY_ORDER_lookup s r :
  SEVERITY_ORDER !! s = Some r ↔
  (s, r) ∈ [("INFO", 1); ("MINOR", 2); ("MAJOR", 3); ("CRITICAL", 4);
            ("BLOCKER", 5)].
Proof.
  unfold SEVERITY_ORDER. symmetry. apply elem_of_list_to_map.
  by apply (bool_decide_unpack _).
Qed.

Lemma THRESHOLD_TO_SEVERITY_lookup thr sev :
  THRESHOLD_TO_SEVERITY !! thr = Some sev ↔
  (thr, sev) ∈ [("info", "INFO"); ("low", "MINOR"); ("medium", "MAJOR");
                ("high", "CRITICAL"); ("blocker", "BLOCKER");
                ("minor", "MINOR"); ("major", "MAJOR");
                ("critical", "CRITICAL"); ("all", "INFO")].
Proof.
  unfold THRESHOLD_TO_SEVERITY. symmetry. apply elem_of_list_to_map.
  by apply (bool_decide_unpack _).
Qed.

Lemma rankOf_known s r : SEVERITY_ORDER !! s = Some r → rankOf s = r.
Proof. unfold rankOf. by intros ->. Qed.

Lemma rankOf_unknown s : s ∉ severities → rankOf s = 0.
Proof.
  intros Hs. unfold rankOf.
  destruct (SEVERITY_ORDER !! s) as [r|] eqn:Hr; [|done].
  destruct Hs. apply SEVERITY_ORDER_lookup in Hr. unfold severities.
  rewrite !elem_of_cons, elem_of_nil in Hr. rewrite !elem_of_cons.
  destruct_or!; simplify_eq; auto 10.
Qed.

Lemma rankOf_INFO : rankOf "INFO" = 1.
Proof. reflexivity. Qed.

(** Every alias names a severity of the enumeration, of rank 1 to 5. *)
Lemma threshold_rank thr sev :
  THRESHOLD_TO_SEVERITY !! thr = Some sev →
  SEVERITY_ORDER !! sev = Some (rankOf sev) ∧ 1 ≤ rankOf sev ≤ 5.
Proof.
  intros H%THRESHOLD_TO_SEVERITY_lookup.
  rewrite !elem_of_cons, elem_of_nil in H.
  destruct_or!; simplify_eq; by vm_compute.
Qed.

End table_facts.

(** ** [filter_issues] as a filter followed by a sort *)

Section filter_facts.
Context (changed_files : gset string) (threshold_rank : Z).

Lemma filter_step_spec findings issue :
  filter_step changed_files threshold_rank findings issue
  = findings ++ kept_findings changed_files threshold_rank [issue].
Proof.
  unfold filter_step, kept_findings. rewrite filter_cons, filter_nil.
  fold (issue_rank issue).
  destruct (decide (kept changed_files threshold_rank issue)) as [[Hr Hf]|Hn].
  - destruct (Z.ltb_spec (issue_rank issue) threshold_rank); [lia|].
    by rewrite bool_decide_true.
  - rewrite app_nil_r.
    destruct (Z.ltb_spec (issue_rank issue) threshold_rank); [done|].
    case_bool_decide; [|done]. by destruct Hn.
Qed.

Lemma filter_foldl_spec raw_issues findings :
  foldl (filter_step changed_files threshold_rank) findings raw_issues
  = findings ++ kept_findings changed_files threshold_rank raw_issues.
Proof.
  revert findings. induction raw_issues as [|issue raw IH]; intros findings.
  { by rewrite app_nil_r. }
  simpl. rewrite IH, filter_step_spec, <-(assoc_L (++)). f_equal.
  unfold kept_findings. rewrite (filter_cons _ issue raw), filter_cons, filter_nil.
  by destruct (decide (kept changed_files threshold_rank issue)).
Qed.

End filter_facts.

Lemma filter_issues_valid raw_issues changed_files threshold sev :
  THRESHOLD_TO_SEVERITY !! threshold = Some sev →
  filter_issues raw_issues changed_files threshold
  = Ok (list_sort sort_key_lt finding_sort_key
          (kept_findings changed_files (rankOf sev) raw_issues)).
Proof.
  intros Hthr. destruct (threshold_rank _ _ Hthr) as [Hsev _].
  unfold filter_issues, getitem. rewrite Hthr, Hsev.
  by rewrite filter_foldl_spec.
Qed.

Lemma kept_findings_Forall changed_files rank raw_issues :
  Forall (λ f, rank ≤ rankOf (f_severity f) ∧ f_file f ∈ changed_files)
    (kept_findings changed_files rank raw_issues).
Proof.
  unfold kept_findings. apply Forall_fmap, Forall_forall.
  by intros i [? _]%list_elem_of_filter.
Qed.

Lemma filter_issues_sorted findings :
  StronglySorted finding_order
    (list_sort sort_key_lt finding_sort_key findings).
Proof.
  apply Sorted_StronglySorted; [apply _|].
  apply list_sort_Sorted; [apply sort_key_lt_true|apply sort_key_lt_false].
Qed.

(** ** Running the script *)

Section run_facts.
Context (w : world).

Lemma run_bind {A B} (m : M A) (k : A → M B) tr :
  run (m ≫= k) tr
  = match run m tr with
    | (Some (Ok x), tr') => run (k x) tr'
    | (Some (Err e), tr') => (Some (Err e), tr')
    | (None, tr') => (None, tr')
    end.
Proof. reflexivity. Qed.

Lemma run_ret {A} (x : A) tr : run (mret x) tr = (Some (Ok x), tr).
Proof. reflexivity. Qed.

Lemma run_emit_bind {B} ev (k : M B) tr :
  run (emit ev;; k) tr = run k (tr ++ [ev]).
Proof. reflexivity. Qed.

(** One iteration of the loop of [fetch_issues]. *)
Lemma fetch_loop_step fuel host key headers page acc tr :
  run (fetch_loop w (S fuel) host key headers page acc) tr
  = let req := search_request host key headers page in
    let tr' := tr ++ [EvRequest req] in
    match urlopen w req with
    | HTTPError code body =>
        (Some (Err (RuntimeError
                      ("SonarQube API error " +:+ Py.str_of_int code
                       +:+ ": " +:+ body))), tr')
    | URLError reason =>
        (Some (Err (RuntimeError
                      ("Cannot reach SonarQube at " +:+ host
                       +:+ ": " +:+ reason))), tr')
    | BadBody => (Some (Err ValueError), tr')
    | Body p =>
        let acc' := acc ++ default [] (issues p) in
        let pg := default (Paging None None) (paging p) in
        if page * default 500 (pageSize pg)
           >=? default (Z.of_nat (length acc')) (total pg)
        then (Some (Ok acc'), tr')
        else run (fetch_loop w fuel host key headers (page + 1) acc') tr'
    end.
Proof.
  simpl.
  destruct (urlopen w _) as [| | |p]; try done.
  by destruct (_ >=? _).
Qed.

(** The loop only appends requests to the log, and its outcome does not
    depend on the log. *)
Lemma fetch_loop_frame fuel host key headers page acc tr :
  run (fetch_loop w fuel host key headers page acc) tr
  = ((run (fetch_loop w fuel host key headers page acc) []).1,
     tr ++ (run (fetch_loop w fuel host key headers page acc) []).2).
Proof.
  revert page acc tr. induction fuel as [|fuel IH]; intros page acc tr.
  { simpl. by rewrite app_nil_r. }
  rewrite !fetch_loop_step. simpl.
  destruct (urlopen w _) as [| | |p]; try done.
  destruct (_ >=? _); [done|].
  rewrite (IH _ _ (tr ++ _)), (IH _ _ [_]). simpl.
  by rewrite <-(assoc_L (++)).
Qed.

Lemma fetch_loop_requests fuel host key headers page acc :
  Forall (λ ev, is_request ev = true)
    (run (fetch_loop w fuel host key headers page acc) []).2.
Proof.
  revert page acc. induction fuel as [|fuel IH]; intros page acc.
  { constructor. }
  rewrite fetch_loop_step. simpl.
  destruct (urlopen w _) as [| | |p]; try by repeat constructor.
  destruct (_ >=? _); [by repeat constructor|].
  rewrite fetch_loop_frame. simpl. constructor; [done|apply IH].
Qed.



End run_facts.

(** ** Pagination *)

Section pagination_facts.
Context (w : world) (host key : string)
  (headers : list (string * header_value)).

#[local] Abbreviation loop fuel page acc :=
  (fetch_loop w fuel host key headers page acc).
#[local] Abbreviation reqs from count :=
  ((λ i : nat, EvRequest (search_request host key headers (Z.of_nat i)))
     <$> seq from count).

Lemma page_payload_Some page p :
  page_payload w host key headers page = Some p →
  urlopen w (search_request host key headers (Z.of_nat page)) = Body p.
Proof. unfold page_payload. by destruct (urlopen w _); intros [= ->]. Qed.

Lemma pages_issues_S n p :
  page_payload w host key headers (S n) = Some p →
  pages_issues w host key headers n ++ default [] (issues p)
  = pages_issues w host key headers (S n).
Proof. intros Hp. simpl. unfold page_issues. by rewrite Hp. Qed.

Lemma fetch_loop_stop_at (page : nat) (acc : list raw_issue) p :
  (Z.of_nat page * default 500 (pageSize (default (Paging None None) (paging p)))
   >=? default (Z.of_nat (length acc))
         (total (default (Paging None None) (paging p))))
  = stop_at page (length acc) p.
Proof. reflexivity. Qed.

(** From page [m + 1] on, the loop runs up to the first page [n] whose
    answer meets the test. *)
Lemma fetch_loop_pages n :
  stops_first_at w host key headers n →
  ∀ fuel m tr, (m < n)%nat → (n - m ≤ fuel)%nat →
    run (loop fuel (Z.of_nat (S m)) (pages_issues w host key headers m)) tr
    = (Some (Ok (pages_issues w host key headers n)),
       tr ++ reqs (S m) (n - m)%nat).
Proof.
  intros Hn. induction fuel as [|fuel IH]; intros m tr Hm Hfuel; [lia|].
  rewrite fetch_loop_step. cbv zeta.
  destruct (Hn (S m) ltac:(lia)) as (p & Hp & Hstop).
  rewrite (page_payload_Some _ _ Hp), (pages_issues_S _ _ Hp).
  rewrite fetch_loop_stop_at, Hstop.
  replace (n - m)%nat with (S (n - S m)) by lia. simpl seq. rewrite fmap_cons.
  case_bool_decide as Heq.
  - subst n. replace (S m - S m)%nat with 0%nat by lia. done.
  - replace (Z.of_nat (S m) + 1) with (Z.of_nat (S (S m))) by lia.
    rewrite IH by lia. by rewrite <-(assoc_L (++)).
Qed.

(** A loop that returns has stopped at the first such page. *)
Lemma fetch_loop_returns fuel :
  ∀ m tr found tr',
    run (loop fuel (Z.of_nat (S m)) (pages_issues w host key headers m)) tr
    = (Some (Ok found), tr') →
    (∀ i, (1 ≤ i ≤ m)%nat →
       ∃ p, page_payload w host key headers i = Some p ∧
            stop_at i (length (pages_issues w host key headers i)) p = false) →
    ∃ n, (m < n ≤ m + fuel)%nat ∧ stops_first_at w host key headers n ∧
         found = pages_issues w host key headers n ∧
         tr' = tr ++ reqs (S m) (n - m)%nat.
Proof.
  induction fuel as [|fuel IH]; intros m tr found tr' Hrun Hbefore; [done|].
  rewrite fetch_loop_step in Hrun. cbv zeta in Hrun.
  destruct (page_payload w host key headers (S m)) as [p|] eqn:Hp.
  2:{ unfold page_payload in Hp. by destruct (urlopen w _). }
  rewrite (page_payload_Some _ _ Hp), (pages_issues_S _ _ Hp) in Hrun.
  rewrite fetch_loop_stop_at in Hrun.
  destruct (stop_at (S m) _ p) eqn:Hstop.
  - simplify_eq. exists (S m). split; [lia|]. split_and!; [|done|].
    + intros i Hi. destruct (decide (i = S m)) as [->|Hne].
      * exists p. by rewrite bool_decide_true.
      * destruct (Hbefore i ltac:(lia)) as (q & ? & ?). exists q.
        by rewrite bool_decide_false.
    + by replace (S m - m)%nat with 1%nat by lia.
  - replace (Z.of_nat (S m) + 1) with (Z.of_nat (S (S m))) in Hrun by lia.
    apply IH in Hrun as (n & Hn & Hfirst & -> & ->).
    + exists n. split; [lia|]. split_and!; [done..|].
      rewrite <-(assoc_L (++)). f_equal.
      by replace (n - m)%nat with (S (n - S m)) by lia.
    + intros i Hi. destruct (decide (i = S m)) as [->|Hne]; [by exists p|].
      apply Hbefore. lia.
Qed.

End pagination_facts.

(** ** The stages of [main] *)

Section main_facts.
Context (w : world) (fuel : nat) (a : args).

Lemma fetch_issues_frame tr :
  run (fetch_issues w fuel (host_url a) (project_key a) (headers_of a)) tr
  = (fetch_result w fuel a, tr ++ fetch_events w fuel a).
Proof. unfold fetch_issues. by rewrite fetch_loop_frame. Qed.

Lemma fetch_events_requests :
  Forall (λ ev, is_request ev = true) (fetch_events w fuel a).
Proof. apply fetch_loop_requests. Qed.

Lemma report_phase_run changed findings tr :
  run (report_phase w a changed findings) tr
  = let mk1 := EvMakedirs (output_json a) in
    let mk2 := EvMakedirs (output_md a) in
    let wr1 := EvWriteJson (output_json a) (output_of a changed findings) in
    let wr2 :=
      EvWriteText (output_md a)
        (markdown_text (project_key a) (threshold_of a)
           (Z.of_nat (size changed)) findings) in
    if can_makedirs w (output_json a) then
      if can_makedirs w (output_md a) then
        if can_write w (output_json a) then
          if can_write w (output_md a) then
            (Some (Ok (exit_status findings)), tr ++ [mk1; mk2; wr1; wr2])
          else (Some (Err (OSError (output_md a))), tr ++ [mk1; mk2; wr1])
        else (Some (Err (OSError (output_json a))), tr ++ [mk1; mk2])
      else (Some (Err (OSError (output_md a))), tr ++ [mk1; mk2])
    else (Some (Err (OSError (output_json a))), tr ++ [mk1]).
Proof.
  unfold report_phase, makedirs_for, write_json, write_markdown.
  cbv zeta. rewrite !run_bind. simpl.
  destruct (can_makedirs w (output_json a)); simpl; [|done].
  destruct (can_makedirs w (output_md a)); simpl;
    [|by rewrite <-(assoc_L (++))].
  destruct (can_write w (output_json a)); simpl;
    [|by rewrite <-(assoc_L (++))].
  destruct (can_write w (output_md a)); simpl;
    by rewrite <-!(assoc_L (++)).
Qed.

Lemma load_changed_files_run path tr :
  run (load_changed_files w path) tr
  = (match file_lines w path with
     | Some lines => Some (Ok (changed_of lines))
     | None => Some (Err (OSError path))
     end, tr ++ [EvOpenRead path]).
Proof.
  unfold load_changed_files, open_read. rewrite run_bind, run_emit_bind.
  by destruct (file_lines w path).
Qed.

(** [main], stage by stage. *)
Lemma main_run tr :
  run (main w fuel a) tr
  = if bool_decide (is_Some (THRESHOLD_TO_SEVERITY !! threshold_of a)) then
      match file_lines w (changed_files a) with
      | None =>
          (Some (Err (OSError (changed_files a))),
           tr ++ [EvOpenRead (changed_files a)])
      | Some lines =>
          let tr1 :=
            tr ++ EvOpenRead (changed_files a) :: fetch_events w fuel a in
          match fetch_result w fuel a with
          | None => (None, tr1)
          | Some (Err e) => (Some (Err e), tr1)
          | Some (Ok raw_issues) =>
              match filter_issues raw_issues (changed_of lines)
                      (threshold_of a) with
              | Err e => (Some (Err e), tr1)
              | Ok findings =>
                  run (report_phase w a (changed_of lines) findings) tr1
              end
          end
      end
    else
      (Some (Err (RuntimeError
                    (invalid_threshold_message (severity_threshold a)))),
       tr).
Proof.
  unfold main. fold (threshold_of a).
  case_bool_decide; simpl negb; cbv iota; [|done].
  rewrite run_bind, load_changed_files_run.
  destruct (file_lines w (changed_files a)) as [lines|]; [|done].
  cbv iota beta. rewrite run_bind. fold (headers_of a).
  rewrite fetch_issues_frame.
  cbv zeta. rewrite <-(assoc_L (++)). simpl app at 2.
  destruct (fetch_result w fuel a) as [[raw|e]|]; [|done..].
  rewrite run_bind.
  destruct (filter_issues raw (changed_of lines) (threshold_of a)); done.
Qed.

End main_facts.

(** ** The changed-file set *)

Section changed_facts.

Lemma lstrip_head s :
  Py.lstrip s = "" ∨ ∃ c t, Py.lstrip s = String c t ∧ Py.isspace c = false.
Proof.
  induction s as [|c s IH]; simpl; [by left|].
  destruct (Py.isspace c) eqn:Hc; [done|]. right. by exists c, s.
Qed.

Lemma rstrip_idempotent s : Py.rstrip (Py.rstrip s) = Py.rstrip s.
Proof.
  induction s as [|c s IH]; simpl; [done|].
  destruct (Py.rstrip s) as [|c' r] eqn:Hr.
  - destruct (Py.isspace c) eqn:Hc; simpl; [done|]. by rewrite Hc.
  - change (Py.rstrip (String c (String c' r)))
      with (match Py.rstrip (String c' r) with
            | "" => if Py.isspace c then "" else String c ""
            | r' => String c r'
            end).
    by rewrite IH.
Qed.

Lemma lstrip_rstrip c t :
  Py.isspace c = false →
  Py.lstrip (Py.rstrip (String c t)) = Py.rstrip (String c t).
Proof.
  intros Hc. simpl. destruct (Py.rstrip t); rewrite ?Hc; simpl; by rewrite Hc.
Qed.

Lemma strip_idempotent s : Py.strip (Py.strip s) = Py.strip s.
Proof.
  unfold Py.strip.
  destruct (lstrip_head s) as [->|(c & t & -> & Hc)]; [done|].
  by rewrite lstrip_rstrip, rstrip_idempotent.
Qed.

Lemma normalize_path_strip s : normalize_path (Py.strip s) = normalize_path s.
Proof. unfold normalize_path. by rewrite strip_idempotent. Qed.

Lemma load_step_foldl lines files :
  foldl load_step files lines
  = files ∪ list_to_set
              (normalize_path <$> filter (λ line, Py.strip line ≠ "") lines).
Proof.
  revert files. induction lines as [|line lines IH]; intros files; simpl.
  { by rewrite (right_id_L ∅ (∪)). }
  rewrite IH, filter_cons. unfold load_step.
  destruct (String.eqb_spec (Py.strip line) "") as [Heq|Hne].
  - by rewrite decide_False by (by intros []).
  - rewrite decide_True by done. rewrite fmap_cons, list_to_set_cons.
    by rewrite normalize_path_strip, (assoc_L (∪)).
Qed.

(** The set holds the normalised non-blank lines, each once. *)
Lemma size_changed_of lines :
  size (changed_of lines)
  = length (remove_dups
              (normalize_path <$> filter (λ line, Py.strip line ≠ "") lines)).
Proof.
  unfold changed_of. rewrite load_step_foldl, (left_id_L ∅ (∪)).
  rewrite <-(size_list_to_set (C:=gset string) (remove_dups _))
    by apply NoDup_remove_dups.
  f_equal. apply set_eq. intros x.
  by rewrite !elem_of_list_to_set, elem_of_remove_dups.
Qed.

End changed_facts.

(** ** The exit status *)

(** Case analysis on the membership of an event in a log put together
    with [::] and [++]. *)
Ltac split_elem_of H :=
  repeat first
    [ apply elem_of_nil in H; destruct H
    | apply elem_of_cons in H as [H|H]
    | apply elem_of_app in H as [H|H] ];
  try done.

Section script_facts.
Context (w : world) (a : args).

Lemma requests_not_writes (l : list event) :
  Forall (λ ev, is_request ev = true) l →
  Forall (λ ev, is_write ev = false) l.
Proof. intros H. eapply Forall_impl; [done|]. by intros []. Qed.



Lemma script_main fuel status tr :
  script w fuel a [] = (Some status, tr) →
  (∃ tr', run (main w fuel a) [] = (Some (Ok status), tr')) ∨
  (∃ e tr', run (main w fuel a) [] = (Some (Err e), tr') ∧ status = 1).
Proof.
  unfold script.
  destruct (run (main w fuel a) []) as [[[st|e]|] tr'];
    [| |done].
  - intros [= -> ->]. left. by eexists.
  - right. exists e, tr'. by destruct e; simplify_eq.
Qed.

End script_facts.

(** * The properties of the specification *)

(** ** Path normalisation *)

(** C5, as the specification states it, fails: [normalize_path] removes a
    leading [./] after stripping white space and replaces backslashes after
    [normpath] has run, so a second application can strip or resolve what
    the first one left.  Two inputs on which a second application changes
    the result: ["./ a"] and ["a\./b"]. *)
Lemma normalize_path_not_idempotent :
  normalize_path (normalize_path "./ a") ≠ normalize_path "./ a" ∧
  normalize_path (normalize_path (String "a" (String backslash "./b")))
  ≠ normalize_path (String "a" (String backslash "./b")).
Proof. split; vm_compute; discriminate. Qed.

(** C5 (amended): for every path [p] without a backslash whose normal form
    neither starts nor ends with white space,
    [normalize(normalize(p)) = normalize(p)]; and
    [normalize("./a/b") = normalize("a/b") = "a/b"]. *)
Theorem normalize_path_idempotent p :
  Py.contains backslash p = false →
  Py.strip (normalize_path p) = normalize_path p →
  normalize_path (normalize_path p) = normalize_path p ∧
  normalize_path "./a/b" = "a/b" ∧ normalize_path "a/b" = "a/b".
Proof.
  intros Hbs Hstrip. split; [|done].
  unfold normalize_path in Hstrip |- *.
  set (q := if Py.startswith (Py.strip p) "./" then Py.drop 2 (Py.strip p)
            else Py.strip p) in *.
  assert (Py.contains backslash (normpath q) = false) as Hq.
  { apply normpath_contains; [done..|]. unfold q.
    destruct (Py.startswith _ _); auto using contains_drop, contains_strip. }
  rewrite (replace_absent _ _ _ Hq) in Hstrip |- *.
  rewrite Hstrip, normpath_no_dot_slash, normpath_idempotent.
  by apply replace_absent.
Qed.

Lemma normalize_path_idempotent_witness :
  normalize_path (normalize_path " ./src/../lib//x.py ")
  = normalize_path " ./src/../lib//x.py " ∧
  normalize_path "./a/b" = "a/b" ∧ normalize_path "a/b" = "a/b".
Proof.
  apply (normalize_path_idempotent " ./src/../lib//x.py "); reflexivity.
Defined.

(** ** The filter *)

(** C1: for a valid threshold token, [filter_issues] returns a list all of
    whose elements have a severity rank at or above the threshold rank and
    a file in the changed set; the list holds exactly the findings of the
    raw issues that pass both tests (a missing severity ranks as [INFO]),
    so an issue failing either test contributes nothing. *)
Theorem filter_issues_keeps_exactly raw_issues changed_files threshold sev :
  THRESHOLD_TO_SEVERITY !! threshold = Some sev →
  ∃ findings,
    filter_issues raw_issues changed_files threshold = Ok findings ∧
    Forall (λ f, rankOf sev ≤ rankOf (f_severity f) ∧ f_file f ∈ changed_files)
      findings ∧
    findings ≡ₚ
      finding_of <$> filter (kept changed_files (rankOf sev)) raw_issues ∧
    (∀ issue, r_severity issue = None → issue_rank issue = rankOf "INFO").
Proof.
  intros Hthr. eexists. split; [by apply filter_issues_valid|].
  split_and!.
  - rewrite list_sort_perm. apply kept_findings_Forall.
  - apply list_sort_perm.
  - intros issue Hs. unfold issue_rank. by rewrite Hs.
Qed.

Lemma filter_issues_keeps_exactly_witness :
  ∃ findings,
    filter_issues sample_issues sample_changed "medium" = Ok findings ∧
    Forall (λ f, rankOf "MAJOR" ≤ rankOf (f_severity f)
                 ∧ f_file f ∈ sample_changed) findings ∧
    findings ≡ₚ
      finding_of <$> filter (kept sample_changed (rankOf "MAJOR")) sample_issues ∧
    (∀ issue, r_severity issue = None → issue_rank issue = rankOf "INFO").
Proof.
  apply (filter_issues_keeps_exactly sample_issues sample_changed
           "medium" "MAJOR").
  reflexivity.
Defined.

(** C2: for a valid threshold token, the list [filter_issues] returns is
    ordered by severity rank descending, then file, line and key
    ascending; of two findings with the same severity, file and line and
    different keys, the one with the smaller key comes first; and the
    result is a function of the input. *)
Theorem filter_issues_ordered raw_issues changed_files threshold sev :
  THRESHOLD_TO_SEVERITY !! threshold = Some sev →
  ∃ findings,
    filter_issues raw_issues changed_files threshold = Ok findings ∧
    StronglySorted finding_order findings ∧
    (∀ (i j : nat) f g,
       findings !! i = Some f → findings !! j = Some g →
       f_severity f = f_severity g → f_file f = f_file g →
       f_line f = f_line g → str_lt (f_key f) (f_key g) → (i < j)%nat) ∧
    (∀ findings',
       filter_issues raw_issues changed_files threshold = Ok findings' →
       findings' = findings).
Proof.
  intros Hthr. rewrite (filter_issues_valid _ _ _ _ Hthr).
  eexists. split; [done|].
  pose proof (filter_issues_sorted
                (kept_findings changed_files (rankOf sev) raw_issues)) as Hs.
  split_and!; [done| |congruence].
  intros i j f g Hi Hj Hsev Hfile Hline Hkey.
  destruct (Nat.lt_trichotomy i j) as [?|[->|Hji]]; [done|..].
  - rewrite Hi in Hj. simplify_eq. by destruct (str_lt_irrefl (f_key g)).
  - pose proof (StronglySorted_lookup _ _ _ _ _ _ Hs Hji Hj Hi) as Hgf.
    unfold finding_order in Hgf. rewrite Hsev, Hfile, Hline in Hgf.
    destruct Hgf as [?|[_ [?%str_lt_irrefl|[_ [?|[_ [?|Heq]]]]]]];
      [lia|done|lia|by destruct (str_lt_asym _ _ Hkey)|].
    rewrite Heq in Hkey. by destruct (str_lt_irrefl (f_key f)).
Qed.

Lemma filter_issues_ordered_witness :
  ∃ findings,
    filter_issues sample_issues sample_changed "low" = Ok findings ∧
    StronglySorted finding_order findings ∧
    (∀ (i j : nat) f g,
       findings !! i = Some f → findings !! j = Some g →
       f_severity f = f_severity g → f_file f = f_file g →
       f_line f = f_line g → str_lt (f_key f) (f_key g) → (i < j)%nat) ∧
    (∀ findings',
       filter_issues sample_issues sample_changed "low" = Ok findings' →
       findings' = findings).
Proof.
  apply (filter_issues_ordered sample_issues sample_changed "low" "MINOR").
  reflexivity.
Defined.

(** C7: a severity string outside the enumeration has rank 0, below the
    rank of [INFO]; for every valid threshold token an issue that carries
    it is left out of the result, which [filter_issues] still returns: the
    result is that of the list without the issue, and no finding in it has
    this severity. *)
Theorem unrecognized_severity_excluded s :
  s ∉ severities →
  rankOf s = 0 ∧ rankOf s < rankOf "INFO" ∧
  ∀ threshold sev changed_files before after issue,
    THRESHOLD_TO_SEVERITY !! threshold = Some sev →
    r_severity issue = Some s →
    ∃ findings,
      filter_issues (before ++ issue :: after) changed_files threshold
      = Ok findings ∧
      filter_issues (before ++ after) changed_files threshold = Ok findings ∧
      Forall (λ f, f_severity f ≠ s) findings.
Proof.
  intros Hs. pose proof (rankOf_unknown s Hs) as Hrank.
  split; [done|]. split; [by rewrite Hrank|].
  intros threshold sev changed_files before after issue Hthr Hsev.
  destruct (threshold_rank _ _ Hthr) as [_ [Hlow _]].
  rewrite !(filter_issues_valid _ _ _ _ Hthr).
  assert (kept_findings changed_files (rankOf sev) (before ++ issue :: after)
          = kept_findings changed_files (rankOf sev) (before ++ after)) as ->.
  { unfold kept_findings. rewrite !filter_app, filter_cons.
    destruct (decide (kept changed_files (rankOf sev) issue)) as [[Hk _]|];
      [|done].
    unfold issue_rank in Hk. rewrite Hsev in Hk. simpl in Hk. lia. }
  eexists. split_and!; [done..|].
  rewrite list_sort_perm.
  eapply Forall_impl; [apply kept_findings_Forall|].
  intros f [Hf _] Heq. rewrite Heq in Hf. lia.
Qed.

Lemma unrecognized_severity_excluded_witness :
  rankOf "URGENT" = 0 ∧ rankOf "URGENT" < rankOf "INFO" ∧
  ∀ threshold sev changed_files before after issue,
    THRESHOLD_TO_SEVERITY !! threshold = Some sev →
    r_severity issue = Some "URGENT" →
    ∃ findings,
      filter_issues (before ++ issue :: after) changed_files threshold
      = Ok findings ∧
      filter_issues (before ++ after) changed_files threshold = Ok findings ∧
      Forall (λ f, f_severity f ≠ "URGENT") findings.
Proof.
  apply (unrecognized_severity_excluded "URGENT").
  apply (bool_decide_unpack _). vm_compute. exact I.
Defined.

(** ** Pagination *)

(** C3: the loop of [fetch_issues] ends at the first page whose answer
    meets [page * pageSize >= total], with [total] and [pageSize] taken
    from the paging data of that answer.  If page [n] is the first such
    page, exactly the pages [1..n] are requested and their issues are
    returned; conversely a loop that returns has stopped at such a page.
    For a server that reports [total=1200, pageSize=500] with every answer,
    exactly the pages 1, 2 and 3 are requested, and with 500, 500 and 200
    issues on them all 1200 are returned. *)
Theorem fetch_issues_pagination w host key headers :
  (∀ n fuel, (1 ≤ n ≤ fuel)%nat →
     stops_first_at w host key headers n →
     run (fetch_issues w fuel host key headers) []
     = (Some (Ok (pages_issues w host key headers n)),
        requests host key headers n)) ∧
  (∀ fuel found tr,
     run (fetch_issues w fuel host key headers) [] = (Some (Ok found), tr) →
     ∃ n, (1 ≤ n ≤ fuel)%nat ∧ stops_first_at w host key headers n ∧
          found = pages_issues w host key headers n ∧
          tr = requests host key headers n) ∧
  ((∀ page, ∃ p, page_payload w host key headers page = Some p ∧
                 paging p = Some (Paging (Some 1200) (Some 500))) →
   ∀ fuel, (3 ≤ fuel)%nat →
     run (fetch_issues w fuel host key headers) []
     = (Some (Ok (page_issues w host key headers 1
                  ++ page_issues w host key headers 2
                  ++ page_issues w host key headers 3)),
        [EvRequest (search_request host key headers 1);
         EvRequest (search_request host key headers 2);
         EvRequest (search_request host key headers 3)]) ∧
     (length (page_issues w host key headers 1) = 500%nat →
      length (page_issues w host key headers 2) = 500%nat →
      length (page_issues w host key headers 3) = 200%nat →
      length (page_issues w host key headers 1
              ++ page_issues w host key headers 2
              ++ page_issues w host key headers 3) = 1200%nat)).
Proof.
  assert (∀ n fuel, (1 ≤ n ≤ fuel)%nat →
     stops_first_at w host key headers n →
     run (fetch_issues w fuel host key headers) []
     = (Some (Ok (pages_issues w host key headers n)),
        requests host key headers n)) as Hforward.
  { intros n fuel Hn Hstop.
    pose proof (fetch_loop_pages w host key headers n Hstop fuel 0%nat []
                  ltac:(lia) ltac:(lia)) as Hrun.
    rewrite Nat.sub_0_r in Hrun. exact Hrun. }
  split_and!; [done| |].
  - intros fuel found tr Hrun.
    destruct (fetch_loop_returns w host key headers fuel 0%nat [] found tr
                Hrun) as (n & Hn & Hstop & -> & ->); [intros; lia|].
    exists n. split; [lia|]. split_and!; [done..|].
    unfold requests. by rewrite Nat.sub_0_r.
  - intros Hpaging fuel Hfuel. split.
    + assert (stops_first_at w host key headers 3) as Hstop.
      { intros i Hi. destruct (Hpaging i) as (p & Hp & Hpg).
        exists p. split; [done|]. unfold stop_at. rewrite Hpg. simpl.
        assert (i = 1 ∨ i = 2 ∨ i = 3)%nat as [->|[->| ->]] by lia; done. }
      rewrite (Hforward 3%nat fuel ltac:(lia) Hstop). simpl.
      by rewrite <-(assoc_L (++)).
    + intros H1 H2 H3. rewrite !length_app. lia.
Qed.

Lemma fetch_issues_pagination_witness :
  run (fetch_issues paged_world 5 "https://sonar.example" "proj" []) []
  = (Some (Ok (page_issues paged_world "https://sonar.example" "proj" [] 1
               ++ page_issues paged_world "https://sonar.example" "proj" [] 2
               ++ page_issues paged_world "https://sonar.example" "proj" [] 3)),
     [EvRequest (search_request "https://sonar.example" "proj" [] 1);
      EvRequest (search_request "https://sonar.example" "proj" [] 2);
      EvRequest (search_request "https://sonar.example" "proj" [] 3)]) ∧
  length (page_issues paged_world "https://sonar.example" "proj" [] 1
          ++ page_issues paged_world "https://sonar.example" "proj" [] 2
          ++ page_issues paged_world "https://sonar.example" "proj" [] 3)
  = 1200%nat.
Proof.
  destruct (fetch_issues_pagination paged_world "https://sonar.example"
              "proj" []) as (_ & _ & Hpaged).
  destruct (Hpaged (λ page, ex_intro _ _ (conj eq_refl eq_refl)) 5%nat
              ltac:(lia)) as [Hrun Hlen].
  split; [exact Hrun|]. apply Hlen; vm_compute; reflexivity.
Defined.

(** ** The exit status *)



(** C6: when the lower-cased, trimmed threshold token is not in the alias
    table, the script ends with exit status 1 after nothing but the error
    message: no file is read and no request is issued, however many
    iterations the fetch loop is allowed. *)
Theorem invalid_threshold_fails_first w fuel a :
  THRESHOLD_TO_SEVERITY !! Py.strip (Py.lower (severity_threshold a)) = None →
  ∃ tr,
    script w fuel a [] = (Some 1, tr) ∧
    tr = [EvStderr ("error: "
                    +:+ invalid_threshold_message (severity_threshold a))] ∧
    Forall (λ ev, is_request ev = false) tr.
Proof.
  intros Hnone. eexists. unfold script. rewrite main_run.
  rewrite bool_decide_false by (unfold threshold_of; rewrite Hnone;
                                 by intros [? [=]]).
  split_and!; [done..|]. by repeat constructor.
Qed.

Lemma invalid_threshold_fails_first_witness :
  ∃ tr,
    script sample_world 0 (sample_args "urgent") [] = (Some 1, tr) ∧
    tr = [EvStderr ("error: " +:+ invalid_threshold_message "urgent")] ∧
    Forall (λ ev, is_request ev = false) tr.
Proof.
  apply (invalid_threshold_fails_first sample_world 0 (sample_args "urgent")).
  vm_compute. reflexivity.
Defined.

(** C8: when the threshold token is rejected, the changed-file list
    cannot be read or the fetch raises, the run writes no output file.
    A run that does write one has got through validation, loading,
    fetching and filtering, and the writes come after the last request. *)
Theorem no_output_before_filtering w fuel a r tr :
  run (main w fuel a) [] = (r, tr) →
  (THRESHOLD_TO_SEVERITY !! threshold_of a = None
   ∨ file_lines w (changed_files a) = None
   ∨ (∃ e, fetch_result w fuel a = Some (Err e)) →
   Forall (λ ev, is_write ev = false) tr) ∧
  (Exists (λ ev, is_write ev = true) tr →
   ∃ findings suffix,
     pipeline_findings w fuel a findings ∧
     tr = EvOpenRead (changed_files a) :: fetch_events w fuel a ++ suffix ∧
     Forall (λ ev, is_request ev = false) suffix).
Proof.
  rewrite main_run. simpl app. intros Hrun.
  pose proof (requests_not_writes _ (fetch_events_requests w fuel a)) as Hreqs.
  case_bool_decide as Hthr.
  2:{ simplify_eq. split; [by constructor|]. by intros ?%Exists_nil. }
  destruct Hthr as [sev Hsev].
  destruct (file_lines w (changed_files a)) as [lines|] eqn:Hlines.
  2:{ simplify_eq. split; [by repeat constructor|].
      intros [?|?%Exists_nil]%Exists_cons; done. }
  cbv zeta in Hrun.
  assert (∀ o, (o, EvOpenRead (changed_files a) :: fetch_events w fuel a)
               = (r, tr) →
            Forall (λ ev, is_write ev = false) tr ∧
            ¬ Exists (λ ev, is_write ev = true) tr) as Hearly.
  { intros o [= <- <-].
    assert (Forall (λ ev, is_write ev = false)
              (EvOpenRead (changed_files a) :: fetch_events w fuel a)) as Hall
      by (by constructor).
    split; [done|]. intros Hex. apply Exists_exists in Hex as (ev & Hin & Hw).
    rewrite Forall_forall in Hall. apply Hall in Hin. congruence. }
  destruct (fetch_result w fuel a) as [[raw|e]|] eqn:Hfetch.
  - destruct (filter_issues raw (changed_of lines) (threshold_of a))
      as [findings|e] eqn:Hfilter.
    2:{ destruct (Hearly _ Hrun). split; [done|]. intros. done. }
    split.
    { intros [Hnone|[?|[e ?]]]; [congruence|done..]. }
    intros _. exists findings. rewrite report_phase_run in Hrun.
    cbv zeta in Hrun.
    repeat (destruct (can_makedirs w _) || destruct (can_write w _));
      simplify_eq/=;
      (eexists; split; [by exists sev, lines, raw|];
       split; [done|by repeat constructor]).
  - destruct (Hearly _ Hrun). split; [done|]. intros. done.
  - destruct (Hearly _ Hrun). split; [done|]. intros. done.
Qed.

Lemma no_output_before_filtering_witness :
  Forall (λ ev, is_write ev = false)
    (run (main unreachable_world 3 (sample_args "high")) []).2.
Proof.
  refine (proj1 (no_output_before_filtering unreachable_world 3
                   (sample_args "high") _ _ _) _).
  - vm_compute. reflexivity.
  - right. right. eexists. vm_compute. reflexivity.
Defined.

(** ** The reports *)

(** C9: in the table of the narrative report, the row of a finding whose
    line is 0 has an empty Line cell, not the text [0]; the row of a
    finding with a positive line number shows that number.  The line of a
    finding is the line [issue_line] gives, which is 0 or positive. *)
Theorem markdown_line_cell item :
  (f_line item = PInt 0 →
   markdown_row item
   = "| " +:+ f_severity item +:+ " | `" +:+ f_file item +:+ "` |  | `"
     +:+ f_rule item +:+ "` | "
     +:+ Py.replace newline " "
           (Py.replace "|" (String backslash "|") (f_message item))
     +:+ " |" +:+ nl) ∧
  (∀ n, 0 < n → f_line item = PInt n →
   markdown_row item
   = "| " +:+ f_severity item +:+ " | `" +:+ f_file item +:+ "` | "
     +:+ Py.str_of_int n +:+ " | `"
     +:+ f_rule item +:+ "` | "
     +:+ Py.replace newline " "
           (Py.replace "|" (String backslash "|") (f_message item))
     +:+ " |" +:+ nl) ∧
  Py.str_of_int 0 = "0" ∧
  (∀ issue, 0 ≤ int_value (issue_line issue) ∧
            (int_value (issue_line issue) = 0 → issue_line issue = PInt 0)) ∧
  (∀ project_key threshold changed_count findings,
     findings ≠ [] →
     markdown_text project_key threshold changed_count findings
     = markdown_header project_key threshold changed_count findings
       +:+ "| Severity | File | Line | Rule | Message |" +:+ nl
       +:+ "|---|---|---:|---|---|" +:+ nl
       +:+ foldr (λ item rest, markdown_row item +:+ rest) "" findings).
Proof.
  split_and!.
  - intros Hline. unfold markdown_row. by rewrite Hline.
  - intros n Hn Hline. unfold markdown_row. rewrite Hline. simpl.
    by destruct (Z.eqb_spec n 0); [lia|].
  - done.
  - intros issue. unfold issue_line, positive_int.
    assert (∀ x, match
                   match isinstance_int x with
                   | Some v => if 0 <? int_value v then Some v else None
                   | None => None
                   end
                 with
                 | Some v => 0 < int_value v
                 | None => True
                 end) as Hpos.
    { intros x. destruct (isinstance_int x) as [v|]; [|done].
      by destruct (Z.ltb_spec 0 (int_value v)). }
    pose proof (Hpos (r_line issue)) as H1.
    destruct (match isinstance_int (r_line issue) with
              | Some v => _ | None => _ end); [lia|].
    pose proof (Hpos (startLine (default (TextRange None) (r_textRange issue))))
      as H2. cbv zeta.
    destruct (match isinstance_int (startLine _) with
              | Some v => _ | None => _ end); [lia|done].
  - intros project_key threshold changed_count findings Hne.
    unfold markdown_text. by destruct findings.
Qed.

Lemma markdown_line_cell_witness :
  markdown_row file_level_finding
  = "| MAJOR | `src/a.py` |  | `python:S100` | a"
    +:+ String backslash "|b |" +:+ nl.
Proof.
  rewrite (proj1 (markdown_line_cell file_level_finding) eq_refl).
  reflexivity.
Defined.

(** C10: the count of changed files in the structured summary and in the
    header of the narrative report is the number of distinct normalised
    paths among the non-blank lines of the changed-file list, so repeated
    lines and lines that normalise to the same path count once. *)
Theorem changed_files_count w fuel a status tr lines :
  run (main w fuel a) [] = (Some (Ok status), tr) →
  file_lines w (changed_files a) = Some lines →
  let count :=
    Z.of_nat (length (remove_dups
                        (normalize_path
                           <$> filter (λ line, Py.strip line ≠ "") lines))) in
  ∃ output findings,
    EvWriteJson (output_json a) output ∈ tr ∧
    s_changed_files (rep_summary output) = count ∧
    EvWriteText (output_md a)
      (markdown_text (project_key a) (threshold_of a) count findings) ∈ tr ∧
    markdown_header (project_key a) (threshold_of a) count findings
    = "# SonarQube Findings (Changed Files)" +:+ nl +:+ nl
      +:+ "- Project: `" +:+ project_key a +:+ "`" +:+ nl
      +:+ "- Severity threshold: `" +:+ threshold_of a +:+ "`" +:+ nl
      +:+ "- Changed files scanned: `" +:+ Py.str_of_int count +:+ "`" +:+ nl
      +:+ "- Findings: `" +:+ Py.str_of_int (Z.of_nat (length findings))
      +:+ "`" +:+ nl +:+ nl.
Proof.
  intros Hrun Hlines count. rewrite main_run, Hlines in Hrun.
  case_bool_decide; [|done]. cbv zeta in Hrun.
  destruct (fetch_result w fuel a) as [[raw|e]|]; [|done..].
  destruct (filter_issues raw (changed_of lines) (threshold_of a))
    as [findings|e]; [|done].
  rewrite report_phase_run in Hrun. cbv zeta in Hrun.
  repeat (destruct (can_makedirs w _) || destruct (can_write w _));
    simplify_eq/=.
  assert (Z.of_nat (size (changed_of lines)) = count) as Hcount
    by (unfold count; by rewrite size_changed_of).
  exists (output_of a (changed_of lines) findings), findings.
  rewrite <-Hcount. split_and!; [|done| |done].
  - apply elem_of_cons. right. apply elem_of_app. right.
    do 2 apply list_elem_of_further. apply list_elem_of_here.
  - apply elem_of_cons. right. apply elem_of_app. right.
    do 3 apply list_elem_of_further. apply list_elem_of_here.
Qed.

Lemma changed_files_count_witness :
  ∃ output findings,
    EvWriteJson "out/issues.json" output
    ∈ (run (main sample_world 2 (sample_args "medium")) []).2 ∧
    s_changed_files (rep_summary output) = 2 ∧
    EvWriteText "out/issues.md"
      (markdown_text "proj" "medium" 2 findings)
    ∈ (run (main sample_world 2 (sample_args "medium")) []).2 ∧
    markdown_header "proj" "medium" 2 findings
    = "# SonarQube Findings (Changed Files)" +:+ nl +:+ nl
      +:+ "- Project: `" +:+ "proj" +:+ "`" +:+ nl
      +:+ "- Severity threshold: `" +:+ "medium" +:+ "`" +:+ nl
      +:+ "- Changed files scanned: `" +:+ Py.str_of_int 2 +:+ "`" +:+ nl
      +:+ "- Findings: `" +:+ Py.str_of_int (Z.of_nat (length findings))
      +:+ "`" +:+ nl +:+ nl.
Proof.
  apply (changed_files_count sample_world 2 (sample_args "medium") 3 _
           ["src/a.py" +:+ nl; nl; "./src/b.py" +:+ nl; "src/../src/a.py"]).
  - vm_compute. reflexivity.
  - reflexivity.
Defined.

(** * Further properties of the script *)

(** ** [normalize_path] *)

Section normalize_more.

Lemma replace_removes old new s :
Py.contains old new = false →
Py.contains old (Py.replace old new s) = false.
Proof.
intros Hnew. induction s as [|a s IH]; simpl; [done|].
destruct (Ascii.eqb a old) eqn:Ha.
- by rewrite contains_app, Hnew, IH.
- simpl. by rewrite Ha.
Qed.

Lemma replace_nonempty old c new s :
s ≠ "" → Py.replace old (String c new) s ≠ "".
Proof.
destruct s as [|a s]; [done|]. intros _. simpl.
by destruct (Ascii.eqb a old).
Qed.

Lemma normpath_nonempty q : normpath q ≠ "".
Proof.
by destruct (normpath_shape q) as [->|(k & l & _ & _ & _ & _ & Hne)].
Qed.

End normalize_more.

(** X1: whatever the argument, [normalize_path] returns a string that is
    not empty and holds no backslash. *)
Theorem normalize_path_nonempty_no_backslash p :
  normalize_path p ≠ "" ∧ Py.contains backslash (normalize_path p) = false.
Proof.
  unfold normalize_path. split.
  - apply replace_nonempty, normpath_nonempty.
  - by apply replace_removes.
Qed.

(** X2: for a path without a backslash, [normalize_path] returns [.] or up
    to two slashes followed by segments joined with single slashes, where
    no segment is empty, is [.] or holds a slash, a [..] segment has only
    [..] segments before it, and no [..] follows leading slashes. *)
Theorem normalize_path_shape p :
  Py.contains backslash p = false →
  normalize_path p = "." ∨
  ∃ k l, (k ≤ 2)%nat ∧ clean k l ∧ (k = 0%nat → l ≠ []) ∧
         normalize_path p = Py.repeat_char slash k +:+ Py.join "/" l.
Proof.
  intros Hbs. unfold normalize_path.
  set (q := if Py.startswith (Py.strip p) "./" then Py.drop 2 (Py.strip p)
            else Py.strip p).
  assert (Py.contains backslash (normpath q) = false) as Hq.
  { apply normpath_contains; [done..|]. unfold q.
    destruct (Py.startswith _ _); auto using contains_drop, contains_strip. }
  rewrite (replace_absent _ _ _ Hq).
  destruct (normpath_shape q) as [->|(k & l & Hk & Hcl & _ & Heq & Hne)];
    [by left|].
  right. exists k, l. split_and!; [done..| |done].
  intros -> ->. by rewrite Heq in Hne.
Qed.

Lemma normalize_path_shape_witness :
  normalize_path " ./a//b/../c/ " = "." ∨
  ∃ k l, (k ≤ 2)%nat ∧ clean k l ∧ (k = 0%nat → l ≠ []) ∧
         normalize_path " ./a//b/../c/ "
         = Py.repeat_char slash k +:+ Py.join "/" l.
Proof. apply (normalize_path_shape " ./a//b/../c/ "). reflexivity. Defined.

(** ** [issue_file_path] *)

Lemma split1_app_sep sep k rest :
  Py.contains sep k = false →
  Py.split1 sep (k +:+ String sep rest) = [k; rest].
Proof.
  induction k as [|a k IH]; [rewrite app_nil_l|rewrite app_cons]; simpl.
  { intros _. by rewrite Ascii.eqb_refl. }
  destruct (Ascii.eqb a sep); [done|]. intros H. by rewrite IH.
Qed.

(** X3: for a component [key:path] whose [key] holds no colon,
    [issue_file_path] is the normalised [path], colons inside [path]
    included; a component without a colon is normalised whole, and a
    missing component gives [.]. *)
Theorem issue_file_path_strips_key issue key path :
  r_component issue = Some (key +:+ ":" +:+ path) →
  Py.contains ":" key = false →
  issue_file_path issue = normalize_path path ∧
  (∀ issue' c, r_component issue' = Some c → Py.contains ":" c = false →
               issue_file_path issue' = normalize_path c) ∧
  (∀ issue', r_component issue' = None → issue_file_path issue' = ".").
Proof.
  intros Hc Hkey. unfold issue_file_path. split_and!.
  - rewrite Hc. simpl default.
    change (key +:+ ":" +:+ path) with (key +:+ String ":" path).
    rewrite contains_app, Hkey. simpl orb.
    change (Py.contains ":" (String ":" path)) with true. cbv iota.
    by rewrite split1_app_sep.
  - intros issue' c Hc' Hno. rewrite Hc'. simpl. by rewrite Hno.
  - intros issue' Hc'. by rewrite Hc'.
Qed.

Lemma issue_file_path_strips_key_witness :
  issue_file_path (sample_issue "AX1" "MAJOR" "proj:./src/a:b.py" 3)
  = normalize_path "./src/a:b.py".
Proof.
  refine (proj1 (issue_file_path_strips_key
                   (sample_issue "AX1" "MAJOR" "proj:./src/a:b.py" 3)
                   "proj" "./src/a:b.py" _ _)); reflexivity.
Defined.

(** ** [load_changed_files] *)

Lemma changed_of_list lines :
  changed_of lines
  = list_to_set (normalize_path <$> filter (λ line, Py.strip line ≠ "") lines).
Proof. unfold changed_of. by rewrite load_step_foldl, (left_id_L ∅ (∪)). Qed.

(** X4: a path is in the set [load_changed_files] builds exactly when it
    is the normal form of a line that is not blank; so the set does not
    depend on the order of the lines or on repetitions, and blank lines
    add nothing. *)
Theorem changed_of_elem lines p :
  (p ∈ changed_of lines ↔
   ∃ line, line ∈ lines ∧ Py.strip line ≠ "" ∧ normalize_path line = p) ∧
  (∀ lines', lines ≡ₚ lines' → changed_of lines' = changed_of lines) ∧
  (∀ line, Py.strip line = "" →
           changed_of (line :: lines) = changed_of lines) ∧
  (∀ line, line ∈ lines → changed_of (line :: lines) = changed_of lines).
Proof.
  assert (∀ ls q, q ∈ changed_of ls ↔
            ∃ line, line ∈ ls ∧ Py.strip line ≠ "" ∧ normalize_path line = q)
    as Helem.
  { intros ls q. rewrite changed_of_list, elem_of_list_to_set, list_elem_of_fmap.
    split.
    - intros (line & -> & [? ?]%list_elem_of_filter). by exists line.
    - intros (line & ? & ? & <-). exists line. split; [done|].
      by apply list_elem_of_filter. }
  split_and!; [done|..].
  - intros lines' Hperm. apply set_eq. intros q. rewrite !Helem.
    by setoid_rewrite Hperm.
  - intros line Hblank. apply set_eq. intros q. rewrite !Helem. split.
    + intros (l & [->|?]%elem_of_cons & ? & ?); [done|by exists l].
    + intros (l & ? & ? & ?). exists l. split; [by right|done].
  - intros line Hin. apply set_eq. intros q. rewrite !Helem. split.
    + intros (l & [->|?]%elem_of_cons & ? & ?); by eexists.
    + intros (l & ? & ? & ?). exists l. split; [by right|done].
Qed.

(** X5: an issue of component [key:path] (no colon in [key]) is on a
    changed file exactly when some line of the list that is not blank has
    the same normal form as [path], however the two are spelled. *)
Theorem issue_on_changed_file issue key path lines :
  r_component issue = Some (key +:+ ":" +:+ path) →
  Py.contains ":" key = false →
  (issue_file_path issue ∈ changed_of lines ↔
   ∃ line, line ∈ lines ∧ Py.strip line ≠ "" ∧
           normalize_path line = normalize_path path).
Proof.
  intros Hc Hkey. unfold issue_file_path. rewrite Hc. simpl default.
  change (key +:+ ":" +:+ path) with (key +:+ String ":" path).
  rewrite contains_app, Hkey. simpl orb.
  change (Py.contains ":" (String ":" path)) with true. cbv iota.
  rewrite split1_app_sep by done. simpl default.
  rewrite changed_of_list, elem_of_list_to_set, list_elem_of_fmap. split.
  - intros (line & -> & [? ?]%list_elem_of_filter). by exists line.
  - intros (line & ? & ? & <-). exists line. split; [done|].
    by apply list_elem_of_filter.
Qed.

Lemma issue_on_changed_file_witness :
  issue_file_path (sample_issue "AX1" "MAJOR" "proj:src//lib/../a.py" 3)
  ∈ changed_of ["./src/a.py" +:+ nl; nl] ↔
  ∃ line, line ∈ ["./src/a.py" +:+ nl; nl] ∧ Py.strip line ≠ "" ∧
          normalize_path line = normalize_path "src//lib/../a.py".
Proof.
  apply (issue_on_changed_file
           (sample_issue "AX1" "MAJOR" "proj:src//lib/../a.py" 3)
           "proj" "src//lib/../a.py"); reflexivity.
Defined.

(** ** [fetch_issues] *)

Section fetch_more.
Context (w : world) (host key : string)
(headers : list (string * header_value)).

#[local] Abbreviation loop' fuel page acc :=
(fetch_loop w fuel host key headers page acc).
#[local] Abbreviation reqs' from count :=
((λ i : nat, EvRequest (search_request host key headers (Z.of_nat i)))
   <$> seq from count).

(** While the answers do not meet the test, the loop goes on to the next
  page. *)
Lemma fetch_loop_reaches n :
continues_before w host key headers n →
∀ d fuel m tr, (S m + d = n)%nat →
  run (loop' (fuel + d) (Z.of_nat (S m)) (pages_issues w host key headers m))
    tr
  = run (loop' fuel (Z.of_nat n) (pages_issues w host key headers (n - 1)))
      (tr ++ reqs' (S m) d).
Proof.
intros Hn. induction d as [|d IH]; intros fuel m tr Hm.
{ replace n with (S m) by lia. rewrite Nat.add_0_r, app_nil_r.
  by replace (S m - 1)%nat with m by lia. }
replace (fuel + S d)%nat with (S (fuel + d)) by lia.
rewrite fetch_loop_step. cbv zeta.
destruct (Hn (S m) ltac:(lia)) as (p & Hp & Hstop).
rewrite (page_payload_Some _ _ _ _ _ _ Hp), (pages_issues_S _ _ _ _ _ _ Hp).
rewrite fetch_loop_stop_at, Hstop.
replace (Z.of_nat (S m) + 1) with (Z.of_nat (S (S m))) by lia.
rewrite IH by lia. simpl seq. rewrite fmap_cons.
by rewrite <-(assoc_L (++)).
Qed.

Lemma fetch_issues_reaches n fuel :
(1 ≤ n)%nat → continues_before w host key headers n →
run (fetch_issues w (fuel + (n - 1)) host key headers) []
= run (loop' fuel (Z.of_nat n) (pages_issues w host key headers (n - 1)))
    (reqs' 1 (n - 1)%nat).
Proof.
intros Hn Hcont.
exact (fetch_loop_reaches n Hcont (n - 1)%nat fuel 0%nat [] ltac:(lia)).
Qed.

Lemma fetch_loop_first_request fuel page acc :
∃ rest,
  (run (loop' (S fuel) page acc) []).2
  = EvRequest (search_request host key headers page) :: rest.
Proof.
rewrite fetch_loop_step. simpl.
destruct (urlopen w _) as [| | |q]; simpl; try by eexists.
destruct (_ >=? _); simpl; [by eexists|].
rewrite fetch_loop_frame. simpl. by eexists.
Qed.

Lemma requests_S n :
requests host key headers (S n)
= requests host key headers n
  ++ [EvRequest (search_request host key headers (Z.of_nat (S n)))].
Proof. unfold requests. by rewrite seq_S, fmap_app. Qed.

End fetch_more.

(** X6: when the pages before [n] are answered without meeting the test
    and the request for page [n] fails, [fetch_issues] raises after exactly
    the requests for the pages [1..n]: a [RuntimeError] with the status
    code and body for an HTTP error, one with the host URL and the reason
    when the host is not reached.  The issues of the earlier pages are not
    returned. *)
Theorem fetch_issues_fails_at w host key headers n fuel :
  (1 ≤ n ≤ fuel)%nat →
  continues_before w host key headers n →
  (∀ code body,
     urlopen w (search_request host key headers (Z.of_nat n))
     = HTTPError code body →
     run (fetch_issues w fuel host key headers) []
     = (Some (Err (RuntimeError
                     ("SonarQube API error " +:+ Py.str_of_int code
                      +:+ ": " +:+ body))),
        requests host key headers n)) ∧
  (∀ reason,
     urlopen w (search_request host key headers (Z.of_nat n))
     = URLError reason →
     run (fetch_issues w fuel host key headers) []
     = (Some (Err (RuntimeError
                     ("Cannot reach SonarQube at " +:+ host
                      +:+ ": " +:+ reason))),
        requests host key headers n)).
Proof.
  intros Hn Hcont.
  assert (requests host key headers n
          = requests host key headers (n - 1)
            ++ [EvRequest (search_request host key headers (Z.of_nat n))])
    as ->.
  { destruct n as [|n]; [lia|]. rewrite requests_S.
    by replace (S n - 1)%nat with n by lia. }
  replace fuel with (S (fuel - n) + (n - 1))%nat by lia.
  rewrite (fetch_issues_reaches w host key headers n _ ltac:(lia) Hcont).
  rewrite fetch_loop_step. cbv zeta. unfold requests.
  split; [intros code body Hresp|intros reason Hresp]; by rewrite Hresp.
Qed.

Lemma fetch_issues_fails_at_witness :
  run (fetch_issues failing_world 4 "https://sonar.example" "proj" []) []
  = (Some (Err (RuntimeError
                  ("SonarQube API error " +:+ Py.str_of_int 503
                   +:+ ": " +:+ "Service Unavailable"))),
     requests "https://sonar.example" "proj" [] 2).
Proof.
  refine (proj1 (fetch_issues_fails_at failing_world
                   "https://sonar.example" "proj" [] 2 4 _ _) 503
            "Service Unavailable" _).
  - lia.
  - intros i Hi. replace i with 1%nat by lia. eexists. split; reflexivity.
  - reflexivity.
Defined.

(** X7: the loop relies on the server for its end.  If every answer
    reports a page size of 0 and a positive total, [fetch_issues] has not
    returned after any number of iterations: after [fuel] iterations it has
    requested the pages [1..fuel] and is still running. *)
Theorem fetch_issues_never_ends w host key headers t fuel :
  0 < t →
  (∀ page, ∃ p, page_payload w host key headers page = Some p ∧
                paging p = Some (Paging (Some t) (Some 0))) →
  run (fetch_issues w fuel host key headers) []
  = (None, requests host key headers fuel).
Proof.
  intros Ht Hall.
  assert (continues_before w host key headers (S fuel)) as Hcont.
  { intros i Hi. destruct (Hall i) as (p & Hp & Hpg). exists p.
    split; [done|]. unfold stop_at. rewrite Hpg. simpl.
    rewrite Z.mul_0_r. by destruct (Z.geb_spec 0 t); [lia|]. }
  pose proof (fetch_issues_reaches w host key headers (S fuel) 0
                ltac:(lia) Hcont) as Hrun.
  replace (S fuel - 1)%nat with fuel in Hrun by lia.
  exact Hrun.
Qed.

Lemma fetch_issues_never_ends_witness :
  run (fetch_issues stuck_world 6 "https://sonar.example" "proj" []) []
  = (None, requests "https://sonar.example" "proj" [] 6).
Proof.
  apply (fetch_issues_never_ends stuck_world "https://sonar.example" "proj"
           [] 3 6); [lia|].
  intros page. eexists. split; reflexivity.
Defined.

(** X8: a first answer without paging data ends the fetch after that one
    request when it holds at most 500 issues (the number of issues held
    stands in for the total, 500 for the page size); with more than 500
    issues the loop goes on to page 2. *)
Theorem fetch_issues_without_paging w host key headers p fuel :
  page_payload w host key headers 1 = Some p →
  paging p = None →
  (1 ≤ fuel)%nat →
  ((length (default [] (issues p)) ≤ 500)%nat →
   run (fetch_issues w fuel host key headers) []
   = (Some (Ok (default [] (issues p))),
      [EvRequest (search_request host key headers 1)])) ∧
  ((500 < length (default [] (issues p)))%nat → (2 ≤ fuel)%nat →
   ∃ rest,
     (run (fetch_issues w fuel host key headers) []).2
     = EvRequest (search_request host key headers 1)
       :: EvRequest (search_request host key headers 2) :: rest).
Proof.
  intros Hp Hpg Hfuel. destruct fuel as [|fuel]; [lia|].
  unfold fetch_issues. rewrite fetch_loop_step. cbv zeta.
  pose proof (page_payload_Some _ _ _ _ 1%nat _ Hp) as Hresp.
  change (Z.of_nat 1) with 1 in Hresp. rewrite Hresp, Hpg. simpl.
  split.
  - intros Hlen. destruct (_ >=? _) eqn:Hge; [done|].
    rewrite Z.geb_leb in Hge. apply Z.leb_gt in Hge. lia.
  - intros Hlen Hfuel2. destruct (_ >=? _) eqn:Hge.
    { rewrite Z.geb_leb in Hge. apply Z.leb_le in Hge. lia. }
    destruct fuel as [|fuel]; [lia|].
    destruct (fetch_loop_first_request w host key headers fuel (1 + 1)
                (default [] (issues p))) as [rest Hrest].
    exists rest. by rewrite fetch_loop_frame, Hrest.
Qed.

Lemma fetch_issues_without_paging_witness :
  run (fetch_issues plain_world 1 "https://sonar.example" "proj" []) []
  = (Some (Ok sample_issues),
     [EvRequest (search_request "https://sonar.example" "proj" [] 1)]).
Proof.
  refine (proj1 (fetch_issues_without_paging plain_world
                   "https://sonar.example" "proj" []
                   {| issues := Some sample_issues; paging := None |} 1
                   _ _ _) _); try reflexivity.
  simpl. lia.
Defined.

Section host_more.
Context (w : world) (key : string) (headers : list (string * header_value)).

Lemma rstrip_char_repeat c n : rstrip_char c (Py.repeat_char c n) = "".
Proof.
induction n as [|n IH]; simpl; [done|]. by rewrite IH, Ascii.eqb_refl.
Qed.

Lemma rstrip_char_app_repeat c s n :
rstrip_char c (s +:+ Py.repeat_char c n) = rstrip_char c s.
Proof.
induction s as [|a s IH]; [rewrite app_nil_l|rewrite app_cons]; simpl.
- apply rstrip_char_repeat.
- by rewrite IH.
Qed.

Lemma search_request_trailing host n page :
search_request (host +:+ Py.repeat_char slash n) key headers page
= search_request host key headers page.
Proof. unfold search_request. by rewrite rstrip_char_app_repeat. Qed.

Lemma fetch_loop_trailing host n fuel :
∀ page acc,
  (run (fetch_loop w fuel (host +:+ Py.repeat_char slash n) key headers
          page acc) []).2
  = (run (fetch_loop w fuel host key headers page acc) []).2 ∧
  ∀ found,
    (run (fetch_loop w fuel (host +:+ Py.repeat_char slash n) key headers
            page acc) []).1 = Some (Ok found) ↔
    (run (fetch_loop w fuel host key headers page acc) []).1
    = Some (Ok found).
Proof.
induction fuel as [|fuel IH]; intros page acc; [done|].
rewrite !fetch_loop_step, search_request_trailing. cbv zeta.
destruct (urlopen w _) as [| | |p]; simpl; try done.
destruct (_ >=? _); simpl; [done|].
rewrite (fetch_loop_frame w fuel (host +:+ _)),
  (fetch_loop_frame w fuel host). simpl.
destruct (IH (page + 1) (acc ++ default [] (issues p))) as [-> Hiff].
done.
Qed.

(** Every event of the loop is a request built by [search_request] with
  the arguments of the call. *)
Lemma fetch_loop_events host fuel :
∀ page acc ev,
  ev ∈ (run (fetch_loop w fuel host key headers page acc) []).2 →
  ∃ page', ev = EvRequest (search_request host key headers page').
Proof.
induction fuel as [|fuel IH]; intros page acc ev.
{ by intros ?%elem_of_nil. }
rewrite fetch_loop_step. cbv zeta.
destruct (urlopen w _) as [| | |p]; simpl;
  try (intros ->%list_elem_of_singleton; by eexists).
destruct (_ >=? _); simpl;
  [intros ->%list_elem_of_singleton; by eexists|].
rewrite fetch_loop_frame. simpl.
intros [->|Hin]%elem_of_cons; [by eexists|]. by eapply IH.
Qed.

End host_more.

(** X9: slashes at the end of the host URL make no difference to the
    fetch: the same requests are issued and the same issues returned. *)
Theorem fetch_issues_trailing_slashes w host key headers n fuel :
  (run (fetch_issues w fuel (host +:+ Py.repeat_char slash n) key headers)
     []).2
  = (run (fetch_issues w fuel host key headers) []).2 ∧
  ∀ found,
    (run (fetch_issues w fuel (host +:+ Py.repeat_char slash n) key headers)
       []).1 = Some (Ok found) ↔
    (run (fetch_issues w fuel host key headers) []).1 = Some (Ok found).
Proof. apply fetch_loop_trailing. Qed.

(** X10: every request of a run goes to [<host>/api/issues/search] with
    the project key, the statuses [OPEN,CONFIRMED,REOPENED] and the page
    size 500, and carries the headers [build_headers] made: [Accept]
    always; [Authorization] built from the token when there is one, whatever
    user and password are, and no [Authorization] when token, user and
    password are all empty. *)
Theorem requests_of_run w fuel a req :
  EvRequest req ∈ (run (main w fuel a) []).2 →
  (∃ page,
     req = search_request (host_url a) (project_key a)
             (build_headers (token a) (user a) (password a)) page) ∧
  req_headers req !! 0%nat = Some ("Accept", Plain "application/json") ∧
  (token a ≠ "" →
   req_headers req
   = [("Accept", Plain "application/json");
      ("Authorization", Basic (token a +:+ ":"))]) ∧
  (token a = "" → user a = "" → password a = "" →
   req_headers req = [("Accept", Plain "application/json")]).
Proof.
  intros Hin.
  assert (EvRequest req ∈ fetch_events w fuel a) as Hfetch.
  { rewrite main_run in Hin. case_bool_decide; [|by split_elem_of Hin].
    destruct (file_lines w (changed_files a)) as [lines|];
      [|by split_elem_of Hin].
    cbv zeta in Hin.
    destruct (fetch_result w fuel a) as [[raw|e]|];
      [|by split_elem_of Hin..].
    destruct (filter_issues raw _ _); [|by split_elem_of Hin].
    rewrite report_phase_run in Hin. cbv zeta in Hin.
    by repeat (destruct (can_makedirs w _) || destruct (can_write w _));
      simpl in Hin; split_elem_of Hin. }
  apply fetch_loop_events in Hfetch as [page [= ->]].
  split; [by exists page|]. simpl. unfold headers_of, build_headers.
  split_and!.
  - by repeat case_match.
  - intros Htok. by destruct (token a).
  - by intros -> -> ->.
Qed.

Lemma requests_of_run_witness :
  ∃ page,
    search_request "https://sonar.example/" "proj"
      [("Accept", Plain "application/json");
       ("Authorization", Basic "secret:")] 1
    = search_request (host_url (sample_args "high"))
        (project_key (sample_args "high"))
        (build_headers (token (sample_args "high"))
           (user (sample_args "high")) (password (sample_args "high")))
        page.
Proof.
  refine (proj1 (requests_of_run sample_world 2 (sample_args "high") _ _)).
  vm_compute. apply list_elem_of_further, list_elem_of_here.
Defined.

(** ** [filter_issues] *)

Section filter_more.

Lemma kept_findings_sublist c1 c2 r1 r2 raw :
(∀ issue, kept c2 r2 issue → kept c1 r1 issue) →
kept_findings c2 r2 raw `sublist_of` kept_findings c1 r1 raw.
Proof.
intros Himp. unfold kept_findings.
induction raw as [|issue raw IH]; [done|]. rewrite !filter_cons.
destruct (decide (kept c2 r2 issue)) as [Hk|Hk].
- rewrite decide_True by auto. rewrite !fmap_cons. by constructor.
- destruct (decide (kept c1 r1 issue)); [|done].
  rewrite fmap_cons. by constructor.
Qed.

Lemma kept_findings_nil c r raw :
(kept_findings c r raw = [] ↔ Forall (λ issue, ¬ kept c r issue) raw) ∧
(kept_findings c r raw ≠ [] ↔ Exists (kept c r) raw).
Proof.
unfold kept_findings. induction raw as [|issue raw [IH1 IH2]].
{ split; [by split; [constructor|]|]. split; [done|by intros ?%Exists_nil]. }
rewrite filter_cons. destruct (decide (kept c r issue)) as [Hk|Hk].
- rewrite fmap_cons. split; split; try done.
  + by intros [? _]%Forall_cons.
  + intros _. by left.
- split.
  + rewrite IH1. split; [by constructor|by intros [_ ?]%Forall_cons].
  + rewrite IH2. split; [by right|]. by intros [?|?]%Exists_cons.
Qed.

Lemma list_sort_nil {A K} (lt : K → K → bool) (key : A → K) l :
list_sort lt key l = [] ↔ l = [].
Proof.
split; [|by intros ->]. intros Hs. apply Permutation_nil_r.
rewrite <-Hs. symmetry. apply list_sort_perm.
Qed.

Lemma sort_key_lt_irrefl k : sort_key_lt k k = false.
Proof.
destruct k as [[[r f] l] s]. unfold sort_key_lt.
by rewrite !Z.eqb_refl, !String.eqb_refl.
Qed.


End filter_more.



(** X12: raising the threshold or shrinking the changed-file set only
    removes findings: the findings for the stricter pair are among those
    for the laxer one, with multiplicity; two tokens that name the same
    severity give the same list. *)
Theorem filter_issues_monotone raw_issues c1 c2 t1 t2 s1 s2 :
  THRESHOLD_TO_SEVERITY !! t1 = Some s1 →
  THRESHOLD_TO_SEVERITY !! t2 = Some s2 →
  rankOf s1 ≤ rankOf s2 → c2 ⊆ c1 →
  ∃ fs1 fs2,
    filter_issues raw_issues c1 t1 = Ok fs1 ∧
    filter_issues raw_issues c2 t2 = Ok fs2 ∧
    fs2 ⊆+ fs1 ∧
    (s1 = s2 → c1 = c2 → fs1 = fs2).
Proof.
  intros Ht1 Ht2 Hrank Hsub.
  rewrite (filter_issues_valid _ _ _ _ Ht1), (filter_issues_valid _ _ _ _ Ht2).
  eexists _, _. split_and!; [done..| |by intros -> ->].
  rewrite !list_sort_perm. apply sublist_submseteq, kept_findings_sublist.
  intros issue [Hr Hf]. split; [lia|by apply Hsub].
Qed.

Lemma filter_issues_monotone_witness :
  ∃ fs1 fs2,
    filter_issues sample_issues sample_changed "low" = Ok fs1 ∧
    filter_issues sample_issues sample_changed "major" = Ok fs2 ∧
    fs2 ⊆+ fs1 ∧
    ("MINOR" = "MAJOR" → sample_changed = sample_changed → fs1 = fs2).
Proof.
  apply (filter_issues_monotone sample_issues sample_changed sample_changed
           "low" "major" "MINOR" "MAJOR"); [reflexivity..| |done].
  vm_compute. discriminate.
Defined.

(** X13: the sort is stable on ties: findings that agree on severity
    rank, file, line and key stand in the result in the order in which
    their issues arrived. *)
Theorem filter_issues_stable raw_issues changed threshold sev :
  THRESHOLD_TO_SEVERITY !! threshold = Some sev →
  ∃ findings,
    filter_issues raw_issues changed threshold = Ok findings ∧
    ∀ k, filter (λ f, finding_sort_key f = k) findings
         = filter (λ f, finding_sort_key f = k)
             (finding_of <$> filter (kept changed (rankOf sev)) raw_issues).
Proof.
  intros Hthr. rewrite (filter_issues_valid _ _ _ _ Hthr).
  eexists. split; [done|]. intros k.
  apply list_sort_stable, sort_key_lt_irrefl.
Qed.

Lemma filter_issues_stable_witness :
  ∃ findings,
    filter_issues sample_issues sample_changed "info" = Ok findings ∧
    ∀ k, filter (λ f, finding_sort_key f = k) findings
         = filter (λ f, finding_sort_key f = k)
             (finding_of
                <$> filter (kept sample_changed (rankOf "INFO")) sample_issues).
Proof.
  apply (filter_issues_stable sample_issues sample_changed "info" "INFO").
  reflexivity.
Defined.

(** X14: in a run in which [main] returns, the exit status is 3 exactly
    when some fetched issue has a rank at or above the threshold rank and
    a file in the changed set, and 0 exactly when none has. *)
Theorem gate_trips_iff w fuel a status lines raw_issues sev :
  (run (main w fuel a) []).1 = Some (Ok status) →
  file_lines w (changed_files a) = Some lines →
  fetch_result w fuel a = Some (Ok raw_issues) →
  THRESHOLD_TO_SEVERITY !! threshold_of a = Some sev →
  (status = 3 ↔
   Exists (kept (changed_of lines) (rankOf sev)) raw_issues) ∧
  (status = 0 ↔
   Forall (λ issue, ¬ kept (changed_of lines) (rankOf sev) issue) raw_issues).
Proof.
  intros Hrun Hlines Hfetch Hthr.
  rewrite main_run, Hlines, Hfetch in Hrun. cbv zeta in Hrun.
  rewrite bool_decide_true in Hrun by eauto.
  rewrite (filter_issues_valid _ _ _ _ Hthr), report_phase_run in Hrun.
  cbv zeta in Hrun.
  repeat (destruct (can_makedirs w _) || destruct (can_write w _));
    simplify_eq/=.
  destruct (kept_findings_nil (changed_of lines) (rankOf sev) raw_issues)
    as [Hnil Hcons].
  rewrite <-Hnil, <-Hcons.
  rewrite <-(list_sort_nil sort_key_lt finding_sort_key
               (kept_findings (changed_of lines) (rankOf sev) raw_issues)).
  unfold exit_status.
  by destruct (list_sort sort_key_lt finding_sort_key _).
Qed.

Lemma gate_trips_iff_witness :
  (3 = 3 ↔
   Exists (kept (changed_of ["src/a.py" +:+ nl; nl; "./src/b.py" +:+ nl;
                             "src/../src/a.py"]) (rankOf "MAJOR"))
     sample_issues) ∧
  (3 = 0 ↔
   Forall (λ issue,
             ¬ kept (changed_of ["src/a.py" +:+ nl; nl; "./src/b.py" +:+ nl;
                                 "src/../src/a.py"]) (rankOf "MAJOR") issue)
     sample_issues).
Proof.
  apply (gate_trips_iff sample_world 2 (sample_args "medium") 3 _
           sample_issues "MAJOR"); vm_compute; reflexivity.
Defined.

(** ** [write_markdown] *)

Section markdown_more.

Lemma pipes_escaped_replace_pipe b s :
pipes_escaped b (Py.replace "|" (String backslash "|") s) = true.
Proof.
revert b. induction s as [|a s IH]; intros b; simpl; [done|].
destruct (Ascii.eqb a "|") eqn:Ha.
- change (String backslash "|" +:+ ?t) with (String backslash (String "|" t)).
  simpl. apply IH.
- simpl. rewrite Ha. apply IH.
Qed.

Lemma pipes_escaped_replace_newline b s :
pipes_escaped b (Py.replace newline " " s) = pipes_escaped b s.
Proof.
revert b. induction s as [|a s IH]; intros b; simpl; [done|].
destruct (Ascii.eqb_spec a newline) as [->|Hne].
- change (" " +:+ ?t) with (String " " t). simpl. apply IH.
- simpl. destruct (Ascii.eqb a "|"); by rewrite IH.
Qed.

End markdown_more.

(** X15: the message cell of a table row holds no line feed, and every
    [|] in it directly follows a backslash, whatever the message of the
    issue is. *)
Theorem markdown_message_escaped item :
  let message :=
    Py.replace newline " "
      (Py.replace "|" (String backslash "|") (f_message item)) in
  Py.contains newline message = false ∧
  pipes_escaped false message = true ∧
  ∃ before,
    markdown_row item = before +:+ message +:+ " |" +:+ nl.
Proof.
  cbv zeta. split_and!.
  - by apply replace_removes.
  - by rewrite pipes_escaped_replace_newline, pipes_escaped_replace_pipe.
  - unfold markdown_row.
    exists ("| " +:+ f_severity item +:+ " | `" +:+ f_file item +:+ "` | "
            +:+ (if int_value (f_line item) =? 0 then ""
                 else str_of_pyint (f_line item))
            +:+ " | `" +:+ f_rule item +:+ "` | ").
    generalize (f_severity item), (f_file item), (f_rule item),
      (if int_value (f_line item) =? 0 then ""
       else str_of_pyint (f_line item)).
    intros s1 s2 s3 s4. cbv zeta.
    assert (∀ x y z : string, (x +:+ y) +:+ z = x +:+ y +:+ z) as Hassoc.
    { intros x y z. induction x as [|c x IH]; [done|].
      by rewrite !app_cons, IH. }
    by rewrite !Hassoc.
Qed.

(** ** [main] *)

(** X16: a run in which [main] returns has read the changed-file list
    once, then issued its requests, then made the two directories and
    written the JSON report before the markdown report, each once; both
    reports are built from the list the filter returned for the fetched
    issues, the summary counts that list, and the exit status is 0 or 3. *)
Theorem successful_run_shape w fuel a status tr :
  run (main w fuel a) [] = (Some (Ok status), tr) →
  ∃ lines findings,
    file_lines w (changed_files a) = Some lines ∧
    pipeline_findings w fuel a findings ∧
    tr = EvOpenRead (changed_files a) :: fetch_events w fuel a
         ++ [EvMakedirs (output_json a); EvMakedirs (output_md a);
             EvWriteJson (output_json a)
               (output_of a (changed_of lines) findings);
             EvWriteText (output_md a)
               (markdown_text (project_key a) (threshold_of a)
                  (Z.of_nat (size (changed_of lines))) findings)] ∧
    rep_findings (output_of a (changed_of lines) findings) = findings ∧
    s_findings (rep_summary (output_of a (changed_of lines) findings))
    = Z.of_nat (length findings) ∧
    status = exit_status findings ∧ (status = 0 ∨ status = 3).
Proof.
  rewrite main_run. intros Hrun. case_bool_decide as Hthr; [|done].
  destruct Hthr as [sev Hsev].
  destruct (file_lines w (changed_files a)) as [lines|] eqn:Hlines; [|done].
  cbv zeta in Hrun.
  destruct (fetch_result w fuel a) as [[raw|e]|] eqn:Hfetch; [|done..].
  destruct (filter_issues raw (changed_of lines) (threshold_of a))
    as [findings|e] eqn:Hfilter; [|done].
  rewrite report_phase_run in Hrun. cbv zeta in Hrun.
  repeat (destruct (can_makedirs w _) || destruct (can_write w _));
    simplify_eq/=.
  exists lines, findings. split_and!; [done| |done..|].
  - by exists sev, lines, raw.
  - destruct findings; [by left|by right].
Qed.

Lemma successful_run_shape_witness :
  ∃ lines findings,
    file_lines sample_world (changed_files (sample_args "low")) = Some lines ∧
    pipeline_findings sample_world 1 (sample_args "low") findings ∧
    (run (main sample_world 1 (sample_args "low")) []).2
    = EvOpenRead (changed_files (sample_args "low"))
      :: fetch_events sample_world 1 (sample_args "low")
         ++ [EvMakedirs (output_json (sample_args "low"));
             EvMakedirs (output_md (sample_args "low"));
             EvWriteJson (output_json (sample_args "low"))
               (output_of (sample_args "low") (changed_of lines) findings);
             EvWriteText (output_md (sample_args "low"))
               (markdown_text (project_key (sample_args "low"))
                  (threshold_of (sample_args "low"))
                  (Z.of_nat (size (changed_of lines))) findings)] ∧
    rep_findings (output_of (sample_args "low") (changed_of lines) findings)
    = findings ∧
    s_findings
      (rep_summary (output_of (sample_args "low") (changed_of lines) findings))
    = Z.of_nat (length findings) ∧
    3 = exit_status findings ∧ (3 = 0 ∨ 3 = 3).
Proof.
  apply (successful_run_shape sample_world 1 (sample_args "low") 3).
  vm_compute. reflexivity.
Defined.

(** X17: when the changed-file list cannot be opened, the run ends with
    exit status 1 through an uncaught [OSError]: the only events are the
    attempt to open the file and the traceback; no request is issued and
    nothing is written, however long the fetch loop may run. *)
Theorem unreadable_changed_files w fuel a :
  is_Some (THRESHOLD_TO_SEVERITY !! threshold_of a) →
  file_lines w (changed_files a) = None →
  script w fuel a []
  = (Some 1, [EvOpenRead (changed_files a);
              EvTraceback (OSError (changed_files a))]).
Proof.
  intros Hthr Hlines. unfold script.
  by rewrite main_run, bool_decide_true, Hlines.
Qed.

Lemma unreadable_changed_files_witness :
  script unreadable_world 0 (sample_args "high") []
  = (Some 1, [EvOpenRead "changed.txt"; EvTraceback (OSError "changed.txt")]).
Proof.
  apply (unreadable_changed_files unreadable_world 0 (sample_args "high")).
  - eexists. vm_compute. reflexivity.
  - reflexivity.
Defined.

(** X18: the two reports are written one after the other, without
    coupling: when the filter has returned, the directories can be made
    and the JSON file written, but the markdown file cannot be opened for
    writing, the run ends with exit status 1 with the JSON report written
    and no markdown report, whether or not there are findings. *)
Theorem markdown_write_fails_after_json w fuel a findings :
  pipeline_findings w fuel a findings →
  can_makedirs w (output_json a) = true →
  can_makedirs w (output_md a) = true →
  can_write w (output_json a) = true →
  can_write w (output_md a) = false →
  ∃ tr output,
    script w fuel a [] = (Some 1, tr) ∧
    EvWriteJson (output_json a) output ∈ tr ∧
    rep_findings output = findings ∧
    (∀ path text, EvWriteText path text ∉ tr) ∧
    EvTraceback (OSError (output_md a)) ∈ tr.
Proof.
  intros (sev & lines & raw & Hsev & Hlines & Hfetch & Hfilter) Hm1 Hm2 Hw1 Hw2.
  unfold script. rewrite main_run, bool_decide_true, Hlines, Hfetch by eauto.
  cbv zeta. rewrite Hfilter, report_phase_run. cbv zeta.
  rewrite Hm1, Hm2, Hw1, Hw2.
  eexists _, (output_of a (changed_of lines) findings).
  split_and!; [done| |done| |].
  - apply elem_of_app. left. apply elem_of_cons. right. apply elem_of_app.
    right. do 2 apply list_elem_of_further. apply list_elem_of_here.
  - intros path text Hin.
    pose proof (fetch_events_requests w fuel a) as Hreqs.
    rewrite Forall_forall in Hreqs.
    split_elem_of Hin. by apply Hreqs in Hin.
  - apply elem_of_app. right. apply list_elem_of_here.
Qed.

Lemma markdown_write_fails_after_json_witness :
  ∃ tr output,
    script readonly_md_world 1 (sample_args "blocker") [] = (Some 1, tr) ∧
    EvWriteJson (output_json (sample_args "blocker")) output ∈ tr ∧
    rep_findings output = [] ∧
    (∀ path text, EvWriteText path text ∉ tr) ∧
    EvTraceback (OSError (output_md (sample_args "blocker"))) ∈ tr.
Proof.
  apply (markdown_write_fails_after_json readonly_md_world 1
           (sample_args "blocker") []); try reflexivity.
  exists "BLOCKER",
    ["src/a.py" +:+ nl; nl; "./src/b.py" +:+ nl; "src/../src/a.py"],
    sample_issues.
  split_and!; vm_compute; reflexivity.
Defined.

(** ** The severity counts of the summary *)

Section counts_more.

Lemma counter_foldl findings :
∀ (c : gmap string Z) s,
  foldl (λ c item,
           <[f_severity item := default 0 (c !! f_severity item) + 1]> c)
    c findings !! s
  = if decide (filter (λ f, f_severity f = s) findings = [])
    then c !! s
    else Some (default 0 (c !! s)
               + Z.of_nat (length (filter (λ f, f_severity f = s) findings))).
Proof.
induction findings as [|f fs IH]; intros c s; simpl; [done|].
rewrite IH, filter_cons. destruct (decide (f_severity f = s)) as [<-|Hne].
- rewrite lookup_insert_eq. simpl.
  destruct (decide (filter _ fs = [])) as [->|_]; f_equal; simpl; lia.
- rewrite lookup_insert_ne by done.
  by destruct (decide (filter _ fs = [])).
Qed.

Lemma counter_lookup findings s n :
counter findings !! s = Some n ↔
n = count_severity s findings ∧ 0 < n.
Proof.
unfold counter, count_severity. rewrite counter_foldl, lookup_empty.
destruct (decide (filter _ findings = [])) as [->|Hne]; simpl.
- split; [done|]. intros [-> ?]. lia.
- assert (0 < Z.of_nat
                (length (filter (λ f, f_severity f = s) findings))) as Hpos.
  { destruct (filter _ findings); [done|]. simpl. lia. }
  split.
  + intros [= <-]. lia.
  + by intros [-> _].
Qed.

Lemma item_lt_true x y : item_lt x y = true → item_order x y.
Proof.
unfold item_lt, item_order.
destruct (String.eqb_spec x.1 y.1); simpl; [|by left].
destruct (Z.eqb_spec x.2 y.2); simpl; [done|].
intros ?%Z.ltb_lt. right. split; [done|lia].
Qed.

Lemma item_lt_false x y : item_lt x y = false → item_order y x.
Proof.
unfold item_lt, item_order.
destruct (String.eqb_spec x.1 y.1) as [Heq|Hne]; simpl.
- destruct (Z.eqb_spec x.2 y.2); simpl;
    [intros _|intros ?%Z.ltb_ge]; right; split; first [done|lia].
- intros Hlt. left.
  destruct (str_lt_total x.1 y.1) as [?|[?|?]];
    [unfold str_lt in *; congruence|done..].
Qed.

Lemma item_order_trans : Transitive item_order.
Proof.
intros x y z. unfold item_order.
pose proof (str_lt_trans x.1 y.1 z.1).
intros [H1|[E1 L1]] [H2|[E2 L2]].
- left. eauto.
- left. by rewrite <-E2.
- left. by rewrite E1.
- right. split; [congruence|lia].
Qed.

Lemma strictly_sorted_keys (l : list (string * Z)) :
StronglySorted item_order l → NoDup l.*1 →
StronglySorted (λ x y, str_lt x.1 y.1) l.
Proof.
induction 1 as [|x l Hl IH Hall]; [constructor|].
rewrite fmap_cons. intros [Hx Hnd]%NoDup_cons.
constructor; [by apply IH|].
rewrite Forall_forall in Hall |- *. intros y Hy.
destruct (Hall y Hy) as [?|[Heq _]]; [done|].
destruct Hx. rewrite Heq. by apply list_elem_of_fmap_2.
Qed.

End counts_more.

(** X19: the severity counts of the summary list each severity that
    occurs among the findings with the number of findings that have it,
    and nothing else, in strictly ascending order of the severity names. *)
Theorem severity_counts_spec findings :
  (∀ s n, (s, n) ∈ severity_counts findings ↔
          n = count_severity s findings ∧ 0 < n) ∧
  StronglySorted (λ x y, str_lt x.1 y.1) (severity_counts findings).
Proof.
  unfold severity_counts. split.
  - intros s n. rewrite list_sort_perm, elem_of_map_to_list.
    apply counter_lookup.
  - apply strictly_sorted_keys.
    + apply Sorted_StronglySorted; [apply item_order_trans|].
      apply (list_sort_Sorted item_lt id item_order);
        [apply item_lt_true|apply item_lt_false].
    + rewrite list_sort_perm. apply NoDup_fst_map_to_list.
Qed.
